(** * Parent record transformer of the Zenodo migrator

    A shallow embedding of
    [migrator/zenodo_rdm_migrator/transform/entries/parents.py]
    ([ParentRecordEntry]) together with the Python values and built-ins
    its body relies on, followed by the properties of [transform]. *)

From Stdlib Require Import String Ascii List ZArith Bool Lia.
Import ListNotations.
Open Scope string_scope.
Open Scope list_scope.

(** ** Python values

    Legacy entries are JSON documents that were loaded into Python objects.
    A [dict] keeps its keys in insertion order, so it is an association list
    (a well-formed one has pairwise distinct keys; lookups read the first
    binding).  Strings are sequences of characters of type [ascii]; floating
    point numbers do not occur in the fields this module reads. *)
Module Py.

#[local] Unset Elimination Schemes.
Inductive value : Type :=
| VNone
| VBool (b : bool)
| VInt (n : Z)
| VStr (s : string)
| VList (l : list value)
| VDict (d : list (string * value)).
#[local] Set Elimination Schemes.

Definition dict : Type := list (string * value).

(** Exceptions that the transformer can raise.  [NoConceptRecidForDraft]
    is the domain error of [zenodo_rdm_migrator.errors]; it is constructed
    with [draft=entry]. *)
Inductive exn : Type :=
| KeyError (key : string)
| AttributeError (attr : string)
| TypeError
| NoConceptRecidForDraft (draft : dict).

Inductive result (A : Type) : Type :=
| Ok (a : A)
| Raise (e : exn).
Arguments Ok {A} a.
Arguments Raise {A} e.

Definition bind {A B : Type} (m : result A) (k : A -> result B) : result B :=
  match m with
  | Ok a => k a
  | Raise e => Raise e
  end.

Notation "x <- m ;; k" := (bind m (fun x => k))
  (at level 61, m at next level, right associativity).

(** *** Dictionaries *)

(** [d.get(k)] as an option; [None] when the key is missing. *)
Fixpoint dict_get (k : string) (d : dict) : option value :=
  match d with
  | [] => None
  | (k', v) :: d' => if String.eqb k k' then Some v else dict_get k d'
  end.

(** [k in d] *)
Definition dict_contains (k : string) (d : dict) : bool :=
  match dict_get k d with
  | Some _ => true
  | None => false
  end.

(** [d[k] = v]: an existing key keeps its position, a new one is appended. *)
Fixpoint dict_set (k : string) (v : value) (d : dict) : dict :=
  match d with
  | [] => [(k, v)]
  | (k', v') :: d' =>
      if String.eqb k k' then (k', v) :: d' else (k', v') :: dict_set k v d'
  end.

(** [d.setdefault(k, v)], for its effect on [d]. *)
Definition dict_setdefault (k : string) (v : value) (d : dict) : dict :=
  if dict_contains k d then d else dict_set k v d.

(** [d[k]] on a dictionary. *)
Definition dict_getitem (k : string) (d : dict) : result value :=
  match dict_get k d with
  | Some v => Ok v
  | None => Raise (KeyError k)
  end.

(** *** Built-ins on arbitrary values *)

(** Truth value of an object, as tested by [if x], [not x] and [x or y]. *)
Definition truthy (v : value) : bool :=
  match v with
  | VNone => false
  | VBool b => b
  | VInt n => negb (Z.eqb n 0)
  | VStr s => negb (String.eqb s "")
  | VList l => match l with [] => false | _ :: _ => true end
  | VDict d => match d with [] => false | _ :: _ => true end
  end.

(** [a or b] *)
Definition py_or (a b : value) : value := if truthy a then a else b.

(** [v[k]] with a string subscript [k]. *)
Definition getitem (v : value) (k : string) : result value :=
  match v with
  | VDict d => dict_getitem k d
  | _ => Raise TypeError
  end.

(** [v.get(k, default)]; only dictionaries have the attribute [get]. *)
Definition get (v : value) (k : string) (default : value) : result value :=
  match v with
  | VDict d =>
      match dict_get k d with
      | Some x => Ok x
      | None => Ok default
      end
  | _ => Raise (AttributeError "get")
  end.

(** [sub in s] on strings: [sub] occurs in [s] as a contiguous substring. *)
Fixpoint str_contains (sub s : string) : bool :=
  String.prefix sub s ||
  match s with
  | EmptyString => false
  | String _ s' => str_contains sub s'
  end.

Definition is_str (needle : string) (v : value) : bool :=
  match v with
  | VStr s => String.eqb s needle
  | _ => false
  end.

(** [needle in v] for a string [needle]. *)
Definition contains (needle : string) (v : value) : result bool :=
  match v with
  | VStr s => Ok (str_contains needle s)
  | VList l => Ok (existsb (is_str needle) l)
  | VDict d => Ok (dict_contains needle d)
  | _ => Raise TypeError
  end.

(** [needle in t] for a tuple [t] of strings: equality with one member. *)
Definition in_tuple (v : value) (t : list string) : bool :=
  existsb (fun s => is_str s v) t.

(** [v.startswith(prefixes)] with a tuple of prefixes. *)
Definition startswith (v : value) (prefixes : list string) : result bool :=
  match v with
  | VStr s => Ok (existsb (fun p => String.prefix p s) prefixes)
  | _ => Raise (AttributeError "startswith")
  end.

Definition chars (s : string) : list value :=
  map (fun c => VStr (String c EmptyString)) (list_ascii_of_string s).

(** The sequence of items produced by iterating over [v]
    ([for x in v], [iter(v)]). *)
Definition iterate (v : value) : result (list value) :=
  match v with
  | VList l => Ok l
  | VStr s => Ok (chars s)
  | VDict d => Ok (map (fun kv => VStr (fst kv)) d)
  | _ => Raise TypeError
  end.

(** [next(iter(v), None)] *)
Definition next_or_none (v : value) : result value :=
  items <- iterate v ;;
  Ok (match items with
      | [] => VNone
      | x :: _ => x
      end).

End Py.
Import Py.

(** ** Module constants *)

Definition ZENODO_DATACITE_PREFIXES : list string :=
  ["10.5281/"; "10.5072/"].

Definition IGNORED_COMMUNITIES : list string :=
  ["zenodo"; "ecfunded"].

(** ** The class [ParentRecordEntry] *)
Module ParentRecordEntry.

Definition _schema (entry : dict) : value :=
  VStr "local://records/parent-v3.0.0.json".

Definition _created (entry : dict) : result value :=
  dict_getitem "created" entry.

Definition _updated (entry : dict) : result value :=
  dict_getitem "updated" entry.

Definition _version_id (entry : dict) : result value :=
  dict_getitem "version_id" entry.

(** The slugs kept by the list comprehension of [_communities]. *)
Definition keep_slug (slug : value) : bool :=
  negb (in_tuple slug IGNORED_COMMUNITIES).

Definition _communities (entry : dict) : result value :=
  let result := [] in
  json <- dict_getitem "json" entry ;;
  communities <- get json "communities" VNone ;;
  if truthy communities then
    items <- iterate communities ;;
    let slugs := filter keep_slug items in
    let result := dict_set "ids" (VList slugs) result in
    match slugs with
    | [slug] => Ok (VDict (dict_set "default" slug result))
    | _ => Ok (VDict (dict_set "default" VNone result))
    end
  else Ok (VDict result).

Definition _pids (entry : dict) : result value :=
  let pids := [] in
  json <- dict_getitem "json" entry ;;
  schema <- getitem json "$schema" ;;
  is_draft <- contains "deposits" schema ;;
  doi <- get json "doi" VNone ;;
  conceptdoi <- get json "conceptdoi" VNone ;;
  recognized <-
    (if truthy doi then startswith doi ZENODO_DATACITE_PREFIXES else Ok false) ;;
  if recognized then
    if truthy conceptdoi then
      Ok (VDict (dict_set "doi"
                   (VDict [("client", VStr "datacite");
                           ("provider", VStr "datacite");
                           ("identifier", conceptdoi)]) pids))
    else if negb is_draft then
      Ok (VDict (dict_set "doi"
                   (VDict [("provider", VStr "legacy");
                           ("identifier", VStr "")]) pids))
    else Ok (VDict pids)
  else Ok (VDict pids).

(** The accessor method [_<key>] of the class, for the keys it defines. *)
Definition accessor (key : string) : option (dict -> result value) :=
  if String.eqb key "created" then Some _created
  else if String.eqb key "updated" then Some _updated
  else if String.eqb key "version_id" then Some _version_id
  else None.

(** Modelled from the spec: [Entry._load_partial] is inherited from the
    base class of [invenio_rdm_migrator.transform], which is not part of
    these sources.  The spec's direct-field copy rule says: for each of the
    given keys, copy the value unchanged from input to output only if the
    key is present in the input.  The value copied is the one the accessor
    method of the key returns. *)
Fixpoint _load_partial (entry transformed : dict) (keys : list string) : dict :=
  match keys with
  | [] => transformed
  | key :: keys' =>
      let transformed :=
        match accessor key with
        | Some method =>
            match method entry with
            | Ok v => dict_set key v transformed
            | Raise _ => transformed
            end
        | None => transformed
        end in
      _load_partial entry transformed keys'
  end.

(** The settings written when [access_conditions] is given. *)
Definition access_settings (access_conditions : value) : value :=
  VDict [("allow_user_requests", VBool true);
         ("allow_guest_requests", VBool true);
         ("accept_conditions_text", access_conditions);
         ("secret_link_expiration", VInt 30)].

(** [target[k][k'] = v]: store into the dictionary held under [k]. *)
Definition set_in (k k' : string) (v : value) (target : dict) : result dict :=
  inner <- dict_getitem k target ;;
  match inner with
  | VDict d => Ok (dict_set k (VDict (dict_set k' v d)) target)
  | _ => Raise TypeError
  end.

(** [transform(self, entry)]; [partial] is the flag [self.partial].
    [tjson] is the dictionary bound to [transformed["json"]] at line 91 and
    mutated in place by the ownership and access rules. *)
Definition transform (partial : bool) (entry : dict) : result dict :=
  let transformed := [] in
  let transformed :=
    _load_partial entry transformed ["created"; "updated"; "version_id"] in
  if dict_contains "json" entry then
    json <- dict_getitem "json" entry ;;
    parent_pid <- get json "conceptrecid" VNone ;;
    if negb (truthy parent_pid) then Raise (NoConceptRecidForDraft entry)
    else
      communities <- _communities entry ;;
      pids <- _pids entry ;;
      let tjson :=
        [("$schema", _schema entry);
         ("id", parent_pid);
         ("communities", communities);
         ("pids", pids)] in
      owners0 <- get json "owners" VNone ;;
      let owners := py_or owners0 (VList []) in
      deposit <- get json "_deposit" (VDict []) ;;
      deposit_owners0 <- get deposit "owners" VNone ;;
      let deposit_owners := py_or deposit_owners0 (VList []) in
      owner <- next_or_none (py_or owners deposit_owners) ;;
      let tjson :=
        match owner with
        | VNone => tjson
        | _ =>
            let tjson := dict_setdefault "access" (VDict []) tjson in
            dict_set "access" (VDict [("owned_by", VDict [("user", owner)])])
              tjson
        end in
      access_conditions <- get json "access_conditions" VNone ;;
      tjson <-
        (if truthy access_conditions then
           let tjson := dict_setdefault "access" (VDict []) tjson in
           set_in "access" "settings" (access_settings access_conditions) tjson
         else Ok tjson) ;;
      Ok (dict_set "json" (VDict tjson) transformed)
  else if negb partial then Raise (KeyError "json")
  else Ok transformed.

End ParentRecordEntry.
Import ParentRecordEntry.

(** ** Vocabulary of the properties

    Readers of the legacy entry and of the target record used to state
    the properties; none of them is part of the transformer. *)

(** The value [j.get(k)] of a field of the legacy [json] section. *)
Definition field (k : string) (j : dict) : value :=
  match dict_get k j with
  | Some v => v
  | None => VNone
  end.

(** A field is present when it holds a non-empty value: the tests
    [if x] and [not x] of the transformer do not tell a missing key from
    [None] or an empty value. *)
Definition present (k : string) (j : dict) : bool := truthy (field k j).

(** The [doi] field is a string that starts with a recognized prefix. *)
Definition recognized_doi (j : dict) : bool :=
  match dict_get "doi" j with
  | Some (VStr d) =>
      existsb (fun p => String.prefix p d) ZENODO_DATACITE_PREFIXES
  | _ => false
  end.

(** The nested member [v[k1][k2]...] of a target record, if it exists. *)
Fixpoint lookup_path (ks : list string) (v : value) : option value :=
  match ks with
  | [] => Some v
  | k :: ks' =>
      match v with
      | VDict d =>
          match dict_get k d with
          | Some v' => lookup_path ks' v'
          | None => None
          end
      | _ => None
      end
  end.

(** The keys copied by the direct-field rule. *)
Definition DIRECT_KEYS : list string := ["created"; "updated"; "version_id"].

Definition is_direct_key (k : string) : bool :=
  existsb (String.eqb k) DIRECT_KEYS.

(** The output of the direct-field rule on a fresh record. *)
Definition direct_fields (entry : dict) : dict :=
  _load_partial entry [] DIRECT_KEYS.

(** Lines 98-100 of [transform] as a function of the [json] section:
    the owner, or [None]. *)
Definition resolve_owner (json : value) : result value :=
  owners0 <- get json "owners" VNone ;;
  deposit <- get json "_deposit" (VDict []) ;;
  deposit_owners0 <- get deposit "owners" VNone ;;
  next_or_none (py_or (py_or owners0 (VList []))
                      (py_or deposit_owners0 (VList []))).

(** The members that the ownership and access-settings rules leave in the
    target [json], written as one fragment per combination of the two. *)
Definition access_fragment (owner access_conditions : value) : dict :=
  match owner, truthy access_conditions with
  | VNone, false => []
  | VNone, true =>
      [("access", VDict [("settings", access_settings access_conditions)])]
  | _, false =>
      [("access", VDict [("owned_by", VDict [("user", owner)])])]
  | _, true =>
      [("access", VDict [("owned_by", VDict [("user", owner)]);
                         ("settings", access_settings access_conditions)])]
  end.

(** The four members written at lines 91-97. *)
Definition skeleton (entry : dict) (parent_pid communities pids : value)
  : dict :=
  [("$schema", _schema entry);
   ("id", parent_pid);
   ("communities", communities);
   ("pids", pids)].

(** An optional sequence: a list, or nothing at all. *)
Definition optional_sequence (v : value) : bool :=
  match v with
  | VNone | VList _ => true
  | _ => false
  end.

(** An owner resolves for the [json] section [j]: the first element of
    [owners] when that sequence is non-empty, else the first element of
    [_deposit.owners] when that one is non-empty. *)
Inductive first_owner (j : dict) (o : value) : Prop :=
| first_of_owners (rest : list value) :
    dict_get "owners" j = Some (VList (o :: rest)) ->
    first_owner j o
| first_of_deposit_owners (dep : dict) (rest : list value) :
    present "owners" j = false ->
    dict_get "_deposit" j = Some (VDict dep) ->
    dict_get "owners" dep = Some (VList (o :: rest)) ->
    first_owner j o.

(** A published record with the mandatory fields and the given others. *)
Definition record (fields : dict) : dict :=
  [("json",
    VDict (("$schema",
            VStr "https://zenodo.org/schemas/records/record-v1.0.0.json")
           :: ("conceptrecid", VStr "1") :: fields))].

(** The member [out["json"][k1]...] of a result, when there is one. *)
Definition member (ks : list string) (r : result dict) : option value :=
  match r with
  | Ok out => lookup_path ("json" :: ks) (VDict out)
  | Raise _ => None
  end.

(** An optional string: a string, or nothing at all. *)
Definition optional_string (v : value) : bool :=
  match v with
  | VNone | VStr _ => true
  | _ => false
  end.

(** The shape of a complete legacy [json] section: [conceptrecid] is
    there, [$schema] is a string, and the optional fields that the
    transformer inspects have the types of the data model. *)
Definition legacy_json (j : dict) : bool :=
  present "conceptrecid" j
  && match dict_get "$schema" j with
     | Some (VStr _) => true
     | _ => false
     end
  && optional_sequence (field "communities" j)
  && optional_string (field "doi" j)
  && optional_sequence (field "owners" j)
  && match dict_get "_deposit" j with
     | None => true
     | Some (VDict dep) => optional_sequence (field "owners" dep)
     | Some _ => false
     end.

(** Values that [for x in v], [iter(v)] and [s in v] accept. *)
Definition iterable (v : value) : bool :=
  match v with
  | VStr _ | VList _ | VDict _ => true
  | _ => false
  end.

(** [doi.startswith(ZENODO_DATACITE_PREFIXES)] on a string. *)
Definition recognized_prefix (d : string) : bool :=
  existsb (fun p => String.prefix p d) ZENODO_DATACITE_PREFIXES.

(** The two owner fields can be resolved: the one that is chosen can be
    iterated over. *)
Definition owners_iterable (owners deposit_owners : value) : bool :=
  if truthy owners then iterable owners
  else negb (truthy deposit_owners) || iterable deposit_owners.

(** The [json] sections that [transform] accepts. *)
Definition accepts (j : dict) : bool :=
  present "conceptrecid" j
  && (negb (present "communities" j) || iterable (field "communities" j))
  && match dict_get "$schema" j with
     | Some schema => iterable schema
     | None => false
     end
  && (negb (present "doi" j)
      || match field "doi" j with VStr _ => true | _ => false end)
  && match dict_get "_deposit" j with
     | None => owners_iterable (field "owners" j) VNone
     | Some (VDict dep) =>
         owners_iterable (field "owners" j) (field "owners" dep)
     | Some _ => false
     end.

(** The fields of [json] that [transform] looks up. *)
Definition READ_FIELDS : list string :=
  ["$schema"; "conceptrecid"; "communities"; "doi"; "conceptdoi"; "owners";
   "_deposit"; "access_conditions"].

(** The failures of the rules that run once [conceptrecid] was found. *)
Definition rule_failure (e : exn) : Prop :=
  e = KeyError "$schema" \/ e = AttributeError "get" \/
  e = AttributeError "startswith" \/ e = TypeError.

(** The call returned a value. *)
Definition succeeds {A : Type} (r : result A) : bool :=
  match r with
  | Ok _ => true
  | Raise _ => false
  end.

(** ** The transformer over a store of mutable objects

    The definitions above treat dictionaries as values.  In Python they
    are objects: [entry], the instance [self] and every dictionary or list
    reached from them live in a store and can be written to through any
    reference.  This second embedding of [parents.py] keeps the store
    explicit, one step per statement of the source: every [{}], [[]] and
    dictionary display allocates a new object, every subscript assignment
    and [setdefault] writes to the object its target refers to, wherever
    that object came from. *)
Module Store.

Definition loc : Type := nat.

(** What a variable or a member holds: an immutable value or a reference
    to an object of the store. *)
Inductive svalue : Type :=
| SNone
| SBool (b : bool)
| SInt (n : Z)
| SStr (s : string)
| SRef (l : loc).

Inductive object : Type :=
| ODict (fields : list (string * svalue))
| OList (items : list svalue)
| OInstance (attrs : list (string * svalue)).

(** The store: an object's location is its index; allocation appends. *)
Definition heap : Type := list object.

Inductive sexn : Type :=
| SKeyError (key : string)
| SAttributeError (attr : string)
| STypeError
| SNoConceptRecidForDraft (draft : svalue).

Inductive outcome (A : Type) : Type :=
| SOk (a : A)
| SRaise (e : sexn).
Arguments SOk {A} a.
Arguments SRaise {A} e.

(** A statement: it runs in a store and leaves a store, also when it
    raises. *)
Definition M (A : Type) : Type := heap -> outcome A * heap.

Definition ret {A : Type} (a : A) : M A := fun h => (SOk a, h).

Definition raise {A : Type} (e : sexn) : M A := fun h => (SRaise e, h).

Definition sbind {A B : Type} (m : M A) (k : A -> M B) : M B :=
  fun h =>
    match m h with
    | (SOk a, h') => k a h'
    | (SRaise e, h') => (SRaise e, h')
    end.

Notation "x <~ m ;; k" := (sbind m (fun x => k))
  (at level 61, m at next level, right associativity).

(** An expression that only reads the store. *)
Definition reading {A : Type} (f : heap -> outcome A) : M A :=
  fun h => (f h, h).

(** *** Association lists of members *)

Fixpoint assoc_get {V : Type} (k : string) (d : list (string * V)) : option V :=
  match d with
  | [] => None
  | (k', v) :: d' => if String.eqb k k' then Some v else assoc_get k d'
  end.

Fixpoint assoc_set {V : Type} (k : string) (v : V) (d : list (string * V))
  : list (string * V) :=
  match d with
  | [] => [(k, v)]
  | (k', v') :: d' =>
      if String.eqb k k' then (k', v) :: d' else (k', v') :: assoc_set k v d'
  end.

(** *** The store *)

(** Replace the object at a location. *)
Fixpoint update (l : loc) (o : object) (h : heap) : heap :=
  match h, l with
  | [], _ => []
  | _ :: h', O => o :: h'
  | x :: h', S l' => x :: update l' o h'
  end.

Definition deref (h : heap) (v : svalue) : option object :=
  match v with
  | SRef l => nth_error h l
  | _ => None
  end.

(** A display [{...}] or [[...]]: a new object at a new location. *)
Definition alloc (o : object) : M svalue :=
  fun h => (SOk (SRef (length h)), h ++ [o]).

(** *** Built-ins *)

Definition truthy_in (h : heap) (v : svalue) : bool :=
  match v with
  | SNone => false
  | SBool b => b
  | SInt n => negb (Z.eqb n 0)
  | SStr s => negb (String.eqb s "")
  | SRef l =>
      match nth_error h l with
      | Some (ODict []) | Some (OList []) => false
      | _ => true
      end
  end.

Definition truthy (v : svalue) : M bool :=
  reading (fun h => SOk (truthy_in h v)).

(** [v[k]] with a string subscript. *)
Definition getitem (v : svalue) (k : string) : M svalue :=
  reading (fun h =>
    match deref h v with
    | Some (ODict d) =>
        match assoc_get k d with
        | Some x => SOk x
        | None => SRaise (SKeyError k)
        end
    | _ => SRaise STypeError
    end).

(** [v.get(k, default)] *)
Definition get (v : svalue) (k : string) (default : svalue) : M svalue :=
  reading (fun h =>
    match deref h v with
    | Some (ODict d) =>
        match assoc_get k d with
        | Some x => SOk x
        | None => SOk default
        end
    | _ => SRaise (SAttributeError "get")
    end).

(** [self.name] *)
Definition getattr (v : svalue) (name : string) : M svalue :=
  reading (fun h =>
    match deref h v with
    | Some (OInstance attrs) =>
        match assoc_get name attrs with
        | Some x => SOk x
        | None => SRaise (SAttributeError name)
        end
    | _ => SRaise (SAttributeError name)
    end).

Definition is_sstr (needle : string) (v : svalue) : bool :=
  match v with
  | SStr s => String.eqb s needle
  | _ => false
  end.

(** [needle in v] for a string [needle]. *)
Definition contains (needle : string) (v : svalue) : M bool :=
  reading (fun h =>
    match v with
    | SStr s => SOk (str_contains needle s)
    | SRef l =>
        match nth_error h l with
        | Some (OList items) => SOk (existsb (is_sstr needle) items)
        | Some (ODict d) =>
            SOk (match assoc_get needle d with
                 | Some _ => true
                 | None => false
                 end)
        | _ => SRaise STypeError
        end
    | _ => SRaise STypeError
    end).

(** [v in t] for a tuple [t] of strings. *)
Definition in_tuple (v : svalue) (t : list string) : bool :=
  existsb (fun s => is_sstr s v) t.

(** [v.startswith(prefixes)] *)
Definition startswith (v : svalue) (prefixes : list string) : M bool :=
  match v with
  | SStr s => ret (existsb (fun p => String.prefix p s) prefixes)
  | _ => raise (SAttributeError "startswith")
  end.

Definition chars (s : string) : list svalue :=
  map (fun c => SStr (String c EmptyString)) (list_ascii_of_string s).

(** The items produced by iterating over [v]. *)
Definition iterate (v : svalue) : M (list svalue) :=
  reading (fun h =>
    match v with
    | SStr s => SOk (chars s)
    | SRef l =>
        match nth_error h l with
        | Some (OList items) => SOk items
        | Some (ODict d) => SOk (map (fun kv => SStr (fst kv)) d)
        | _ => SRaise STypeError
        end
    | _ => SRaise STypeError
    end).

(** The items of a list object, as [len(v)] and [v[0]] see them. *)
Definition list_items (v : svalue) : M (list svalue) :=
  reading (fun h =>
    match deref h v with
    | Some (OList items) => SOk items
    | _ => SRaise STypeError
    end).

(** [target[k] = x]: a write to the object that [target] refers to. *)
Definition setitem (target : svalue) (k : string) (x : svalue) : M unit :=
  fun h =>
    match target with
    | SRef l =>
        match nth_error h l with
        | Some (ODict d) => (SOk tt, update l (ODict (assoc_set k x d)) h)
        | _ => (SRaise STypeError, h)
        end
    | _ => (SRaise STypeError, h)
    end.

(** [target.setdefault(k, x)], for its effect. *)
Definition setdefault (target : svalue) (k : string) (x : svalue) : M unit :=
  fun h =>
    match target with
    | SRef l =>
        match nth_error h l with
        | Some (ODict d) =>
            match assoc_get k d with
            | Some _ => (SOk tt, h)
            | None => (SOk tt, update l (ODict (assoc_set k x d)) h)
            end
        | _ => (SRaise (SAttributeError "setdefault"), h)
        end
    | _ => (SRaise (SAttributeError "setdefault"), h)
    end.

(** [a or b]: [b] is evaluated only when [a] is false. *)
Definition or_else (a : svalue) (b : M svalue) : M svalue :=
  nonempty <~ truthy a ;;
  if nonempty then ret a else b.

(** *** The methods of [ParentRecordEntry] *)

Definition _schema (entry : svalue) : M svalue :=
  ret (SStr "local://records/parent-v3.0.0.json").

Definition _created (entry : svalue) : M svalue := getitem entry "created".

Definition _updated (entry : svalue) : M svalue := getitem entry "updated".

Definition _version_id (entry : svalue) : M svalue :=
  getitem entry "version_id".

Definition keep_slug (slug : svalue) : bool :=
  negb (in_tuple slug IGNORED_COMMUNITIES).

Definition _communities (entry : svalue) : M svalue :=
  result <~ alloc (ODict []) ;;
  json <~ getitem entry "json" ;;
  communities <~ get json "communities" SNone ;;
  given <~ truthy communities ;;
  if given then
    items <~ iterate communities ;;
    slugs <~ alloc (OList (filter keep_slug items)) ;;
    _ <~ setitem result "ids" slugs ;;
    kept <~ list_items slugs ;;
    _ <~ match kept with
         | [slug] => setitem result "default" slug
         | _ => setitem result "default" SNone
         end ;;
    ret result
  else ret result.

Definition _pids (entry : svalue) : M svalue :=
  pids <~ alloc (ODict []) ;;
  json <~ getitem entry "json" ;;
  schema <~ getitem json "$schema" ;;
  is_draft <~ contains "deposits" schema ;;
  json <~ getitem entry "json" ;;
  doi <~ get json "doi" SNone ;;
  json <~ getitem entry "json" ;;
  conceptdoi <~ get json "conceptdoi" SNone ;;
  has_doi <~ truthy doi ;;
  recognized <~
    (if has_doi then startswith doi ZENODO_DATACITE_PREFIXES else ret false) ;;
  if recognized then
    has_conceptdoi <~ truthy conceptdoi ;;
    if has_conceptdoi then
      doi_entry <~ alloc (ODict [("client", SStr "datacite");
                                 ("provider", SStr "datacite");
                                 ("identifier", conceptdoi)]) ;;
      _ <~ setitem pids "doi" doi_entry ;;
      ret pids
    else if negb is_draft then
      doi_entry <~ alloc (ODict [("provider", SStr "legacy");
                                 ("identifier", SStr "")]) ;;
      _ <~ setitem pids "doi" doi_entry ;;
      ret pids
    else ret pids
  else ret pids.

Definition accessor (key : string) : option (svalue -> M svalue) :=
  if String.eqb key "created" then Some _created
  else if String.eqb key "updated" then Some _updated
  else if String.eqb key "version_id" then Some _version_id
  else None.

(** Modelled from the spec: [Entry._load_partial] of
    [invenio_rdm_migrator.transform] is not part of these sources.  As in
    [ParentRecordEntry._load_partial] above, each key that the entry
    carries is copied, by a write to [transformed]; a key whose accessor
    raises is skipped. *)
Fixpoint _load_partial (entry transformed : svalue) (keys : list string)
  : M unit :=
  match keys with
  | [] => ret tt
  | key :: keys' =>
      _ <~ match accessor key with
           | Some method =>
               fun h =>
                 match method entry h with
                 | (SOk v, h') => setitem transformed key v h'
                 | (SRaise _, h') => (SOk tt, h')
                 end
           | None => ret tt
           end ;;
      _load_partial entry transformed keys'
  end.

(** Lines 98-100: the owner, or [None]. *)
Definition resolve_owner (entry : svalue) : M svalue :=
  json <~ getitem entry "json" ;;
  owners0 <~ get json "owners" SNone ;;
  owners <~ or_else owners0 (alloc (OList [])) ;;
  json <~ getitem entry "json" ;;
  no_deposit <~ alloc (ODict []) ;;
  deposit <~ get json "_deposit" no_deposit ;;
  deposit_owners0 <~ get deposit "owners" SNone ;;
  deposit_owners <~ or_else deposit_owners0 (alloc (OList [])) ;;
  chosen <~ or_else owners (ret deposit_owners) ;;
  items <~ iterate chosen ;;
  ret (match items with
       | [] => SNone
       | x :: _ => x
       end).

(** Lines 101-103. *)
Definition write_owner (transformed owner : svalue) : M unit :=
  match owner with
  | SNone => ret tt
  | _ =>
      tjson <~ getitem transformed "json" ;;
      empty <~ alloc (ODict []) ;;
      _ <~ setdefault tjson "access" empty ;;
      owned_by <~ alloc (ODict [("user", owner)]) ;;
      access <~ alloc (ODict [("owned_by", owned_by)]) ;;
      tjson <~ getitem transformed "json" ;;
      setitem tjson "access" access
  end.

(** Lines 105-113. *)
Definition write_settings (entry transformed : svalue) : M unit :=
  json <~ getitem entry "json" ;;
  access_conditions <~ get json "access_conditions" SNone ;;
  given <~ truthy access_conditions ;;
  if given then
    tjson <~ getitem transformed "json" ;;
    empty <~ alloc (ODict []) ;;
    _ <~ setdefault tjson "access" empty ;;
    settings <~ alloc (ODict [("allow_user_requests", SBool true);
                              ("allow_guest_requests", SBool true);
                              ("accept_conditions_text", access_conditions);
                              ("secret_link_expiration", SInt 30)]) ;;
    tjson <~ getitem transformed "json" ;;
    access <~ getitem tjson "access" ;;
    setitem access "settings" settings
  else ret tt.

(** [transform(self, entry)] *)
Definition transform (self entry : svalue) : M svalue :=
  transformed <~ alloc (ODict []) ;;
  _ <~ _load_partial entry transformed ["created"; "updated"; "version_id"] ;;
  has_json <~ contains "json" entry ;;
  if has_json then
    json <~ getitem entry "json" ;;
    parent_pid <~ get json "conceptrecid" SNone ;;
    found <~ truthy parent_pid ;;
    if negb found then raise (SNoConceptRecidForDraft entry)
    else
      communities <~ _communities entry ;;
      schema <~ _schema entry ;;
      pids <~ _pids entry ;;
      tjson <~ alloc (ODict [("$schema", schema);
                             ("id", parent_pid);
                             ("communities", communities);
                             ("pids", pids)]) ;;
      _ <~ setitem transformed "json" tjson ;;
      owner <~ resolve_owner entry ;;
      _ <~ write_owner transformed owner ;;
      _ <~ write_settings entry transformed ;;
      ret transformed
  else
    partial <~ getattr self "partial" ;;
    is_partial <~ truthy partial ;;
    if negb is_partial then raise (SKeyError "json")
    else ret transformed.

End Store.

(** *** What the store represents *)

(** [repr h v t]: in the store [h], the value [v] stands for the tree
    [t], the objects it reaches taken at their present contents. *)
#[local] Unset Elimination Schemes.
Inductive repr (h : Store.heap) : Store.svalue -> value -> Prop :=
| repr_none : repr h Store.SNone VNone
| repr_bool (b : bool) : repr h (Store.SBool b) (VBool b)
| repr_int (n : Z) : repr h (Store.SInt n) (VInt n)
| repr_str (s : string) : repr h (Store.SStr s) (VStr s)
| repr_list (l : Store.loc) (sitems : list Store.svalue) (items : list value) :
    nth_error h l = Some (Store.OList sitems) ->
    Forall2 (repr h) sitems items ->
    repr h (Store.SRef l) (VList items)
| repr_dict (l : Store.loc) (sfields : list (string * Store.svalue))
            (fields : dict) :
    nth_error h l = Some (Store.ODict sfields) ->
    Forall2 (fun sf f => fst sf = fst f /\ repr h (snd sf) (snd f))
            sfields fields ->
    repr h (Store.SRef l) (VDict fields).
#[local] Set Elimination Schemes.

(** The failure of the store run and the failure of [transform]. *)
Definition repr_exn (h : Store.heap) (se : Store.sexn) (e : exn) : Prop :=
  match se, e with
  | Store.SKeyError k, KeyError k' => k = k'
  | Store.SAttributeError a, AttributeError a' => a = a'
  | Store.STypeError, TypeError => True
  | Store.SNoConceptRecidForDraft sv, NoConceptRecidForDraft draft =>
      repr h sv (VDict draft)
  | _, _ => False
  end.

(** The outcome of a run stands for the result of [transform]. *)
Definition represents (h : Store.heap) (r : Store.outcome Store.svalue)
                      (f : result dict) : Prop :=
  match r, f with
  | Store.SOk sv, Ok out => repr h sv (VDict out)
  | Store.SRaise se, Raise e => repr_exn h se e
  | _, _ => False
  end.

(** The transformer instance at [self] was built with the flag [p]. *)
Definition instance_partial (h : Store.heap) (self : Store.loc) (p : bool)
  : Prop :=
  exists attrs,
    nth_error h self = Some (Store.OInstance attrs) /\
    Store.assoc_get "partial" attrs = Some (Store.SBool p).

(** Two association lists with the same keys and related members. *)
Definition related_fields (R : Store.svalue -> value -> Prop)
  : list (string * Store.svalue) -> dict -> Prop :=
  Forall2 (fun sf f => fst sf = fst f /\ R (snd sf) (snd f)).

(** The store [H] still holds every object of [h], unchanged. *)
Definition keeps (h H : Store.heap) : Prop :=
  length h <= length H /\
  forall l, l < length h -> nth_error H l = nth_error h l.

(** The objects [ext] sit at the locations from [base] on. *)
Definition holds_at (base : Store.loc) (ext H : Store.heap) : Prop :=
  forall i o, nth_error ext i = Some o -> nth_error H (base + i) = Some o.

(** [v] stands for [t] in every store that keeps [h0] and holds [ext] at
    [base]: a value built from old objects and from the new ones [ext]. *)
Definition stable_repr (h0 : Store.heap) (base : Store.loc) (ext : Store.heap)
                       (v : Store.svalue) (t : value) : Prop :=
  forall H, keeps h0 H -> holds_at base ext H -> repr H v t.

(** Outcomes of a store run against results of the functional embedding. *)
Definition related_outcome {A B : Type} (R : A -> B -> Prop)
                           (r : Store.outcome A) (f : result B) : Prop :=
  match r, f with
  | Store.SOk a, Ok b => R a b
  | Store.SRaise se, Raise e =>
      match se, e with
      | Store.SKeyError k, KeyError k' => k = k'
      | Store.SAttributeError a, AttributeError a' => a = a'
      | Store.STypeError, TypeError => True
      | _, _ => False
      end
  | _, _ => False
  end.

(** A value that is old, or a display [[]] or [{}] that was just
    evaluated. *)
Definition old_or_empty (h0 H : Store.heap) (sv : Store.svalue) (v : value)
  : Prop :=
  repr h0 sv v \/
  exists l,
    sv = Store.SRef l /\
    ((nth_error H l = Some (Store.OList []) /\ v = VList []) \/
     (nth_error H l = Some (Store.ODict []) /\ v = VDict [])).

(** ** Dictionaries and the error monad *)
Section DictFacts.

Lemma bind_ok_inv {A B : Type} (m : result A) (k : A -> result B) (b : B) :
  bind m k = Ok b -> exists a, m = Ok a /\ k a = Ok b.
Proof.
  destruct m as [a | e]; simpl; intros H; [exists a; auto | discriminate].
Qed.

Lemma dict_get_set_same (k : string) (v : value) (d : dict) :
  dict_get k (dict_set k v d) = Some v.
Proof.
  induction d as [| [k' v'] d IH]; simpl.
  - now rewrite String.eqb_refl.
  - destruct (String.eqb k k') eqn:E; simpl; rewrite E; auto.
Qed.

Lemma dict_get_set_other (k k' : string) (v : value) (d : dict) :
  k <> k' -> dict_get k (dict_set k' v d) = dict_get k d.
Proof.
  intros Hne. induction d as [| [k0 v0] d IH]; simpl.
  - destruct (String.eqb k k') eqn:E; auto.
    apply String.eqb_eq in E. contradiction.
  - destruct (String.eqb k' k0) eqn:E; simpl.
    + apply String.eqb_eq in E. subst k0.
      destruct (String.eqb k k') eqn:E'; auto.
      apply String.eqb_eq in E'. contradiction.
    + now rewrite IH.
Qed.

Lemma dict_get_app (k : string) (d d' : dict) :
  dict_get k (d ++ d') =
  match dict_get k d with
  | Some v => Some v
  | None => dict_get k d'
  end.
Proof.
  induction d as [| [k0 v0] d IH]; simpl; auto.
  destruct (String.eqb k k0); auto.
Qed.

End DictFacts.

(** ** The rules of the transformer, one at a time *)
Section Rules.

Variable entry : dict.

(** The direct-field rule copies exactly the bindings of the three keys. *)
Lemma direct_fields_get (k : string) :
  dict_get k (direct_fields entry) =
  if is_direct_key k then dict_get k entry else None.
Proof.
  unfold direct_fields, is_direct_key, DIRECT_KEYS, _load_partial.
  cbn [accessor String.eqb Ascii.eqb Bool.eqb existsb orb].
  unfold _created, _updated, _version_id, dict_getitem.
  destruct (dict_get "created" entry) eqn:Hc;
    destruct (dict_get "updated" entry) eqn:Hu;
    destruct (dict_get "version_id" entry) eqn:Hv;
    cbn;
    destruct (String.eqb_spec k "created") as [Ec | Ec];
    destruct (String.eqb_spec k "updated") as [Eu | Eu];
    destruct (String.eqb_spec k "version_id") as [Ev | Ev];
    subst; try discriminate; cbn; congruence.
Qed.

Lemma direct_fields_no_json : dict_get "json" (direct_fields entry) = None.
Proof. now rewrite direct_fields_get. Qed.

Variable j : dict.
Hypothesis Hjson : dict_get "json" entry = Some (VDict j).

Lemma communities_eq :
  _communities entry =
  (if truthy (field "communities" j) then
     items <- iterate (field "communities" j) ;;
     let slugs := filter keep_slug items in
     Ok (VDict [("ids", VList slugs);
                ("default", match slugs with [slug] => slug | _ => VNone end)])
   else Ok (VDict [])).
Proof.
  unfold _communities, dict_getitem, field. rewrite Hjson. cbn [bind get].
  destruct (dict_get "communities" j) as [c |]; cbn [bind]; [| reflexivity].
  destruct (truthy c); [| reflexivity].
  destruct (iterate c) as [items | e]; cbn [bind]; [| reflexivity].
  destruct (filter keep_slug items) as [| s [| s' rest]]; reflexivity.
Qed.

Lemma pids_eq :
  _pids entry =
  (schema <- dict_getitem "$schema" j ;;
   is_draft <- contains "deposits" schema ;;
   recognized <-
     (if truthy (field "doi" j)
      then startswith (field "doi" j) ZENODO_DATACITE_PREFIXES
      else Ok false) ;;
   Ok (VDict
         (if recognized then
            if truthy (field "conceptdoi" j) then
              [("doi", VDict [("client", VStr "datacite");
                              ("provider", VStr "datacite");
                              ("identifier", field "conceptdoi" j)])]
            else if negb is_draft then
              [("doi", VDict [("provider", VStr "legacy");
                              ("identifier", VStr "")])]
            else []
          else []))).
Proof.
  unfold _pids, dict_getitem at 1. rewrite Hjson. cbn [bind getitem get].
  destruct (dict_getitem "$schema" j) as [schema | e]; cbn [bind];
    [| reflexivity].
  destruct (contains "deposits" schema) as [is_draft | e]; cbn [bind];
    [| reflexivity].
  unfold field.
  destruct (dict_get "doi" j) as [doi |]; cbn [bind];
    destruct (dict_get "conceptdoi" j) as [cdoi |]; cbn [bind truthy];
    try reflexivity;
    (destruct (truthy doi); [| reflexivity]);
    (destruct (startswith doi ZENODO_DATACITE_PREFIXES) as [[|] | e];
     cbn [bind]; try reflexivity).
  - destruct (truthy cdoi); [reflexivity |].
    destruct is_draft; reflexivity.
  - destruct is_draft; reflexivity.
Qed.

(** [transform] on an entry that carries a [json] section. *)
Lemma transform_json_eq (p : bool) :
  transform p entry =
  (if negb (present "conceptrecid" j)
   then Raise (NoConceptRecidForDraft entry)
   else
     communities <- _communities entry ;;
     pids <- _pids entry ;;
     owner <- resolve_owner (VDict j) ;;
     Ok (dict_set "json"
           (VDict (skeleton entry (field "conceptrecid" j) communities pids
                   ++ access_fragment owner (field "access_conditions" j)))
           (direct_fields entry))).
Proof.
  unfold transform, dict_contains, dict_getitem at 1, present.
  rewrite Hjson. cbn [bind get].
  unfold field at 1 2.
  destruct (dict_get "conceptrecid" j) as [pid |]; cbn [bind truthy negb];
    [| reflexivity].
  destruct (truthy pid); cbn [negb]; [| reflexivity].
  destruct (_communities entry) as [comm | e]; cbn [bind]; [| reflexivity].
  destruct (_pids entry) as [pids | e]; cbn [bind]; [| reflexivity].
  unfold resolve_owner, field. cbn [get].
  destruct (dict_get "owners" j) as [o0 |]; cbn [bind];
    (destruct (dict_get "_deposit" j) as [dep |]; cbn [bind]);
    (match goal with
     | |- context [get ?d "owners" VNone] =>
         destruct (get d "owners" VNone) as [d0 | e]; cbn [bind];
         [| reflexivity]
     end);
    (match goal with
     | |- context [next_or_none ?x] =>
         destruct (next_or_none x) as [owner | e]; cbn [bind];
         [| reflexivity]
     end);
    unfold access_fragment;
    (destruct (dict_get "access_conditions" j) as [ac |]; cbn [bind truthy]);
    try (destruct (truthy ac));
    destruct owner; reflexivity.
Qed.

End Rules.

(** ** Properties of [transform] *)

Lemma transform_json_ok_inv (p : bool) (entry j out : dict) :
  dict_get "json" entry = Some (VDict j) ->
  transform p entry = Ok out ->
  exists communities pids owner,
    present "conceptrecid" j = true /\
    _communities entry = Ok communities /\
    _pids entry = Ok pids /\
    resolve_owner (VDict j) = Ok owner /\
    out = dict_set "json"
            (VDict (skeleton entry (field "conceptrecid" j) communities pids
                    ++ access_fragment owner (field "access_conditions" j)))
            (direct_fields entry).
Proof.
  intros Hjson H. rewrite (transform_json_eq entry j Hjson) in H.
  destruct (present "conceptrecid" j); cbn [negb] in H; [| discriminate].
  apply bind_ok_inv in H. destruct H as (communities & Hc & H).
  apply bind_ok_inv in H. destruct H as (pids & Hp & H).
  apply bind_ok_inv in H. destruct H as (owner & Ho & H).
  exists communities, pids, owner. repeat split; auto. congruence.
Qed.

(** A successful call on an entry with a [json] key had a mapping there. *)
Lemma transform_ok_json_dict (p : bool) (entry out : dict) (v : value) :
  dict_get "json" entry = Some v ->
  transform p entry = Ok out ->
  exists j, v = VDict j.
Proof.
  intros Hjson H. destruct v; try (eexists; reflexivity);
    unfold transform, dict_contains, dict_getitem in H; rewrite Hjson in H;
    discriminate.
Qed.

Lemma transform_no_json (p : bool) (entry : dict) :
  dict_get "json" entry = None ->
  transform p entry =
  if negb p then Raise (KeyError "json") else Ok (direct_fields entry).
Proof.
  intros Hjson. unfold transform, dict_contains. now rewrite Hjson.
Qed.

Lemma direct_fields_keys (entry : dict) :
  map fst (direct_fields entry) =
  filter (fun k => dict_contains k entry) DIRECT_KEYS.
Proof.
  unfold direct_fields, DIRECT_KEYS, _load_partial, dict_contains.
  cbn [accessor String.eqb Ascii.eqb Bool.eqb filter].
  unfold _created, _updated, _version_id, dict_getitem.
  destruct (dict_get "created" entry);
    destruct (dict_get "updated" entry);
    destruct (dict_get "version_id" entry); reflexivity.
Qed.

(** C1: when the key [json] is present and [json.conceptrecid] is absent,
    [transform] raises [NoConceptRecidForDraft] carrying the offending
    entry, and returns no output mapping. *)
Theorem missing_conceptrecid_raises (p : bool) (entry j : dict) :
  dict_get "json" entry = Some (VDict j) ->
  dict_get "conceptrecid" j = None ->
  transform p entry = Raise (NoConceptRecidForDraft entry) /\
  (forall out, transform p entry <> Ok out).
Proof.
  intros Hjson Hpid.
  assert (E : transform p entry = Raise (NoConceptRecidForDraft entry)).
  { rewrite (transform_json_eq entry j Hjson).
    unfold present, field. now rewrite Hpid. }
  split; [exact E |]. intros out. rewrite E. discriminate.
Qed.

Lemma missing_conceptrecid_raises_witness :
  let entry := [("created", VStr "2020-01-01");
                ("json", VDict [("$schema", VStr "deposits/v1");
                                ("doi", VStr "10.5281/zenodo.1")])] in
  transform true entry = Raise (NoConceptRecidForDraft entry).
Proof.
  intros entry.
  apply (missing_conceptrecid_raises true entry
           [("$schema", VStr "deposits/v1"); ("doi", VStr "10.5281/zenodo.1")]);
    reflexivity.
Defined.

(** C7: when the key [json] is absent, a transformer in partial mode
    returns exactly the direct fields that the input carries, each copied
    through, and no [json] key; a transformer that is not in partial mode
    raises [KeyError], which is not the [conceptrecid] failure. *)
Theorem json_absent (entry : dict) :
  dict_get "json" entry = None ->
  (exists out,
      transform true entry = Ok out /\
      map fst out = filter (fun k => dict_contains k entry) DIRECT_KEYS /\
      (forall k, dict_get k out =
                 if is_direct_key k then dict_get k entry else None) /\
      dict_get "json" out = None) /\
  transform false entry = Raise (KeyError "json") /\
  (forall draft, transform false entry <> Raise (NoConceptRecidForDraft draft)).
Proof.
  intros Hjson. rewrite !(transform_no_json _ entry Hjson). cbn [negb].
  split; [| split; [reflexivity | discriminate]].
  exists (direct_fields entry). repeat split.
  - apply direct_fields_keys.
  - apply direct_fields_get.
  - apply direct_fields_no_json.
Qed.

Lemma json_absent_witness :
  transform true [("updated", VStr "2021-05-04"); ("version_id", VInt 3)] =
    Ok [("updated", VStr "2021-05-04"); ("version_id", VInt 3)] /\
  transform false [("updated", VStr "2021-05-04"); ("version_id", VInt 3)] =
    Raise (KeyError "json").
Proof.
  split;
    [reflexivity
    | apply (json_absent
               [("updated", VStr "2021-05-04"); ("version_id", VInt 3)]);
      reflexivity].
Defined.

(** C8: on every entry that [transform] accepts, each of [created],
    [updated] and [version_id] is in the output exactly when it is in the
    input, with the very same value. *)
Theorem direct_fields_copied (p : bool) (entry out : dict) (k : string) :
  transform p entry = Ok out ->
  In k DIRECT_KEYS ->
  dict_get k out = dict_get k entry /\
  (dict_contains k out = true <-> dict_contains k entry = true).
Proof.
  intros H Hk.
  assert (Hdirect : is_direct_key k = true).
  { unfold is_direct_key. apply existsb_exists. exists k.
    split; [exact Hk | apply String.eqb_refl]. }
  assert (Hne : k <> "json").
  { intros ->. discriminate. }
  assert (E : dict_get k out = dict_get k entry).
  { destruct (dict_get "json" entry) as [v |] eqn:Hjson.
    - destruct (transform_ok_json_dict p entry out v Hjson H) as [j ->].
      destruct (transform_json_ok_inv p entry j out Hjson H)
        as (c & pids & o & _ & _ & _ & _ & ->).
      rewrite dict_get_set_other by exact Hne.
      rewrite direct_fields_get. now rewrite Hdirect.
    - rewrite (transform_no_json p entry Hjson) in H.
      destruct p; cbn [negb] in H; [| discriminate].
      injection H as <-. rewrite direct_fields_get. now rewrite Hdirect. }
  split; [exact E |]. unfold dict_contains. now rewrite E.
Qed.

Lemma direct_fields_copied_witness :
  dict_get "version_id"
    [("version_id", VInt 4);
     ("json", VDict [("$schema", VStr "local://records/parent-v3.0.0.json");
                     ("id", VStr "12");
                     ("communities", VDict []);
                     ("pids", VDict [])])] =
  dict_get "version_id"
    [("version_id", VInt 4);
     ("json", VDict [("$schema", VStr "records/record-v1.0.0.json");
                     ("conceptrecid", VStr "12")])].
Proof.
  apply (direct_fields_copied false
           [("version_id", VInt 4);
            ("json", VDict [("$schema", VStr "records/record-v1.0.0.json");
                            ("conceptrecid", VStr "12")])]);
    [reflexivity | cbn; auto].
Defined.

(** ** The store embedding against the functional one *)
Section StoreFacts.

Import Store.

(** Induction on [repr] with the members of lists and dictionaries. *)
Lemma repr_induction (h : heap) (P : svalue -> value -> Prop) :
  P SNone VNone ->
  (forall b, P (SBool b) (VBool b)) ->
  (forall n, P (SInt n) (VInt n)) ->
  (forall s, P (SStr s) (VStr s)) ->
  (forall l sitems items,
      nth_error h l = Some (OList sitems) ->
      Forall2 (fun sv v => repr h sv v /\ P sv v) sitems items ->
      P (SRef l) (VList items)) ->
  (forall l sfields fields,
      nth_error h l = Some (ODict sfields) ->
      related_fields (fun sv v => repr h sv v /\ P sv v) sfields fields ->
      P (SRef l) (VDict fields)) ->
  forall sv v, repr h sv v -> P sv v.
Proof.
  intros Hnone Hbool Hint Hstr Hlist Hdict.
  fix IH 3. intros sv v r. destruct r as [| b | n | s | l si it Hl Hi | l sf f Hl Hf].
  - exact Hnone.
  - apply Hbool.
  - apply Hint.
  - apply Hstr.
  - apply (Hlist l si it Hl). clear Hl.
    induction Hi as [| x y xs ys Hxy Hrest IHrest];
      [apply Forall2_nil | apply Forall2_cons];
      [split; [assumption | apply IH; assumption] | assumption].
  - apply (Hdict l sf f Hl). unfold related_fields. clear Hl.
    induction Hf as [| x y xs ys [Hk Hxy] Hrest IHrest];
      [apply Forall2_nil | apply Forall2_cons];
      [split; [assumption | split; [assumption | apply IH; assumption]]
      | assumption].
Qed.

Lemma keeps_refl (h : heap) : keeps h h.
Proof. split; auto. Qed.

Lemma keeps_app (h H ext : heap) : keeps h H -> keeps h (H ++ ext).
Proof.
  intros [Hlen Hk]. split.
  - rewrite length_app. lia.
  - intros l Hl. rewrite nth_error_app1 by lia. auto.
Qed.

Lemma keeps_trans (h H H' : heap) : keeps h H -> keeps H H' -> keeps h H'.
Proof.
  intros [Hlen Hk] [Hlen' Hk']. split; [lia |].
  intros l Hl. rewrite Hk' by lia. auto.
Qed.

(** A value keeps its meaning while the objects of [h] are kept. *)
Lemma repr_keeps (h H : heap) (sv : svalue) (v : value) :
  keeps h H -> repr h sv v -> repr H sv v.
Proof.
  intros [Hlen Hk] r. induction r using repr_induction;
    try (now constructor).
  - apply (repr_list H l sitems items).
    + rewrite Hk; [assumption |]. apply nth_error_Some. congruence.
    + eapply Forall2_impl; [| eassumption]. cbn. tauto.
  - apply (repr_dict H l sfields fields).
    + rewrite Hk; [assumption |]. apply nth_error_Some. congruence.
    + eapply Forall2_impl; [| eassumption]. cbn. tauto.
Qed.

End StoreFacts.

(** *** Reading old objects *)
Section Reading.

Import Store.

Variables h0 H : heap.
Hypothesis Hkeeps : keeps h0 H.

Lemma related_get (R : svalue -> value -> Prop)
    (sf : list (string * svalue)) (f : dict) (k : string) :
  related_fields R sf f ->
  match assoc_get k sf, dict_get k f with
  | Some sv, Some v => R sv v
  | None, None => True
  | _, _ => False
  end.
Proof.
  induction 1 as [| [k1 sv] [k2 v] sf f [Hk Hv] Hrest IH]; cbn; [exact I |].
  cbn in Hk. subst k2. destruct (String.eqb k k1); assumption.
Qed.

Lemma old_dict (sv : svalue) (f : dict) :
  repr h0 sv (VDict f) ->
  exists l sf,
    sv = SRef l /\ nth_error H l = Some (ODict sf) /\
    related_fields (repr h0) sf f.
Proof.
  inversion 1 as [| | | | | l sf f' Hl Hf]; subst.
  exists l, sf. repeat split; auto.
  destruct Hkeeps as [_ Hk]. rewrite Hk; [assumption |].
  apply nth_error_Some. congruence.
Qed.

Lemma old_list (sv : svalue) (items : list value) :
  repr h0 sv (VList items) ->
  exists l si,
    sv = SRef l /\ nth_error H l = Some (OList si) /\
    Forall2 (repr h0) si items.
Proof.
  inversion 1 as [| | | | l si it Hl Hi |]; subst.
  exists l, si. repeat split; auto.
  destruct Hkeeps as [_ Hk]. rewrite Hk; [assumption |].
  apply nth_error_Some. congruence.
Qed.

Lemma truthy_repr (sv : svalue) (v : value) :
  repr h0 sv v -> truthy_in H sv = Py.truthy v.
Proof.
  intros r. destruct v.
  - inversion r. reflexivity.
  - inversion r. reflexivity.
  - inversion r. reflexivity.
  - inversion r. reflexivity.
  - destruct (old_list sv l r) as (loc & si & -> & Hl & Hi).
    cbn. rewrite Hl. inversion Hi; reflexivity.
  - destruct (old_dict sv d r) as (loc & sf & -> & Hl & Hf).
    cbn. rewrite Hl. inversion Hf; reflexivity.
Qed.

Lemma get_repr (sv sd : svalue) (v d : value) (k : string) :
  repr h0 sv v -> repr h0 sd d ->
  exists r,
    Store.get sv k sd H = (r, H) /\
    related_outcome (repr h0) r (Py.get v k d).
Proof.
  intros r rd. unfold Store.get, reading. eexists. split; [reflexivity |].
  destruct v; try (inversion r; subst; cbn; reflexivity).
  - destruct (old_list sv l r) as (loc & si & -> & Hl & Hi).
    cbn. rewrite Hl. reflexivity.
  - destruct (old_dict sv d0 r) as (loc & sf & -> & Hl & Hf).
    cbn. rewrite Hl. pose proof (related_get _ sf d0 k Hf) as Hg.
    destruct (assoc_get k sf), (dict_get k d0); cbn; tauto.
Qed.

Lemma getitem_repr (sv : svalue) (v : value) (k : string) :
  repr h0 sv v ->
  exists r,
    Store.getitem sv k H = (r, H) /\
    related_outcome (repr h0) r (Py.getitem v k).
Proof.
  intros r. unfold Store.getitem, reading. eexists. split; [reflexivity |].
  destruct v; try (inversion r; subst; cbn; exact I).
  - destruct (old_list sv l r) as (loc & si & -> & Hl & Hi).
    cbn. rewrite Hl. exact I.
  - destruct (old_dict sv d r) as (loc & sf & -> & Hl & Hf).
    cbn. rewrite Hl. unfold dict_getitem.
    pose proof (related_get _ sf d k Hf) as Hg.
    destruct (assoc_get k sf), (dict_get k d); cbn; tauto.
Qed.

Lemma is_sstr_repr (needle : string) (sv : svalue) (v : value) :
  repr h0 sv v -> is_sstr needle sv = is_str needle v.
Proof. inversion 1; reflexivity. Qed.

Lemma existsb_repr (f : svalue -> bool) (g : value -> bool)
    (si : list svalue) (items : list value) :
  (forall sv v, repr h0 sv v -> f sv = g v) ->
  Forall2 (repr h0) si items ->
  existsb f si = existsb g items.
Proof.
  intros Hfg. induction 1 as [| sv v si items Hv Hrest IH]; cbn;
    [reflexivity |].
  now rewrite (Hfg sv v Hv), IH.
Qed.

Lemma filter_repr (f : svalue -> bool) (g : value -> bool)
    (si : list svalue) (items : list value) :
  (forall sv v, repr h0 sv v -> f sv = g v) ->
  Forall2 (repr h0) si items ->
  Forall2 (repr h0) (filter f si) (filter g items).
Proof.
  intros Hfg. induction 1 as [| sv v si items Hv Hrest IH]; cbn;
    [constructor |].
  rewrite (Hfg sv v Hv). destruct (g v); [constructor |]; assumption.
Qed.

Lemma contains_repr (needle : string) (sv : svalue) (v : value) :
  repr h0 sv v ->
  exists r,
    Store.contains needle sv H = (r, H) /\
    related_outcome eq r (Py.contains needle v).
Proof.
  intros r. unfold Store.contains, reading. eexists. split; [reflexivity |].
  destruct v; try (inversion r; subst; cbn; reflexivity).
  - destruct (old_list sv l r) as (loc & si & -> & Hl & Hi).
    cbn. rewrite Hl. cbn.
    apply existsb_repr; [apply is_sstr_repr | assumption].
  - destruct (old_dict sv d r) as (loc & sf & -> & Hl & Hf).
    cbn. rewrite Hl. cbn. unfold dict_contains.
    pose proof (related_get _ sf d needle Hf) as Hg.
    destruct (assoc_get needle sf), (dict_get needle d); tauto.
Qed.

Lemma keys_repr (sf : list (string * svalue)) (f : dict) :
  related_fields (repr h0) sf f ->
  Forall2 (repr h0) (map (fun kv => SStr (fst kv)) sf)
                    (map (fun kv => VStr (fst kv)) f).
Proof.
  induction 1 as [| [k1 sv] [k2 v] sf f [Hk Hv] Hrest IH]; cbn;
    constructor; [| assumption].
  cbn in Hk. subst. constructor.
Qed.

Lemma chars_repr (s : string) :
  Forall2 (repr h0) (Store.chars s) (Py.chars s).
Proof.
  unfold Store.chars, Py.chars.
  induction (list_ascii_of_string s); cbn; constructor; [constructor | auto].
Qed.

Lemma iterate_repr (sv : svalue) (v : value) :
  repr h0 sv v ->
  exists r,
    Store.iterate sv H = (r, H) /\
    related_outcome (Forall2 (repr h0)) r (Py.iterate v).
Proof.
  intros r. unfold Store.iterate, reading. eexists. split; [reflexivity |].
  destruct v; try (inversion r; subst; cbn; exact I).
  - inversion r; subst. cbn. apply chars_repr.
  - destruct (old_list sv l r) as (loc & si & -> & Hl & Hi).
    cbn. rewrite Hl. exact Hi.
  - destruct (old_dict sv d r) as (loc & sf & -> & Hl & Hf).
    cbn. rewrite Hl. cbn. apply keys_repr. exact Hf.
Qed.

Lemma startswith_repr (sv : svalue) (v : value) (prefixes : list string) :
  repr h0 sv v ->
  exists r,
    Store.startswith sv prefixes H = (r, H) /\
    related_outcome eq r (Py.startswith v prefixes).
Proof.
  intros r. inversion r; subst; cbn; eexists; split; try reflexivity;
    cbn; auto.
Qed.

Lemma keep_slug_repr (sv : svalue) (v : value) :
  repr h0 sv v -> Store.keep_slug sv = ParentRecordEntry.keep_slug v.
Proof.
  intros r. unfold Store.keep_slug, ParentRecordEntry.keep_slug.
  unfold Store.in_tuple, Py.in_tuple. f_equal.
  induction IGNORED_COMMUNITIES as [| s rest IH]; cbn; [reflexivity |].
  now rewrite (is_sstr_repr s sv v r), IH.
Qed.

End Reading.

(** *** Running statements *)
Section Running.

Import Store.

Lemma sbind_eq {A B : Type} (m : M A) (k : A -> M B) (h h' : heap)
    (r : outcome A) :
  m h = (r, h') ->
  sbind m k h =
  match r with
  | SOk a => k a h'
  | SRaise e => (SRaise e, h')
  end.
Proof. unfold sbind. intros ->. destruct r; reflexivity. Qed.

Lemma sbind_alloc {B : Type} (o : object) (k : svalue -> M B) (h : heap) :
  sbind (alloc o) k h = k (SRef (length h)) (h ++ [o]).
Proof. reflexivity. Qed.

Lemma sbind_ret {A B : Type} (a : A) (k : A -> M B) (h : heap) :
  sbind (ret a) k h = k a h.
Proof. reflexivity. Qed.

Lemma sbind_truthy {B : Type} (v : svalue) (k : bool -> M B) (h : heap) :
  sbind (truthy v) k h = k (truthy_in h v) h.
Proof. reflexivity. Qed.

Lemma nth_error_new (X Y : heap) (o : object) :
  nth_error (X ++ o :: Y) (length X) = Some o.
Proof.
  rewrite nth_error_app2 by lia. now rewrite Nat.sub_diag.
Qed.

Lemma nth_error_fresh (X Y : heap) (i : nat) :
  nth_error (X ++ Y) (length X + i) = nth_error Y i.
Proof.
  rewrite nth_error_app2 by lia. f_equal. lia.
Qed.

Lemma update_fresh (X Y : heap) (i : nat) (o : object) :
  update (length X + i) o (X ++ Y) = X ++ update i o Y.
Proof. induction X as [| x X IH]; cbn; [reflexivity | now rewrite IH]. Qed.

Lemma update_new (X Y : heap) (o o' : object) :
  update (length X) o' (X ++ o :: Y) = X ++ o' :: Y.
Proof.
  rewrite <- (Nat.add_0_r (length X)). now rewrite update_fresh.
Qed.

Lemma length_update (l : loc) (o : object) (h : heap) :
  length (update l o h) = length h.
Proof.
  revert l. induction h as [| x h IH]; intros [| l]; cbn; auto.
Qed.

(** A write to a dictionary that is known to sit at [l]. *)
Lemma setitem_at (l : loc) (d : list (string * svalue)) (k : string)
    (x : svalue) (h : heap) :
  nth_error h l = Some (ODict d) ->
  setitem (SRef l) k x h = (SOk tt, update l (ODict (assoc_set k x d)) h).
Proof. unfold setitem. now intros ->. Qed.

Lemma getitem_at (l : loc) (d : list (string * svalue)) (k : string)
    (x : svalue) (h : heap) :
  nth_error h l = Some (ODict d) ->
  assoc_get k d = Some x ->
  getitem (SRef l) k h = (SOk x, h).
Proof. unfold getitem, reading. cbn. now intros -> ->. Qed.

Lemma holds_at_app (X ext Y : heap) : holds_at (length X) ext ((X ++ ext) ++ Y).
Proof.
  intros i o Hi. rewrite nth_error_app1.
  - now rewrite nth_error_fresh.
  - rewrite length_app. apply Nat.add_lt_mono_l. apply nth_error_Some. congruence.
Qed.

Lemma related_outcome_exn {A A' B B' : Type}
    (R : A -> B -> Prop) (R' : A' -> B' -> Prop)
    (se : sexn) (e : exn) :
  related_outcome R (SRaise se) (Raise e) ->
  related_outcome R' (SRaise se) (Raise e).
Proof. exact (fun H => H). Qed.

End Running.

(** One step of a run: the next statement reads old objects. *)
Ltac read_step L :=
  let r := fresh "r" in
  let E := fresh "E" in
  let Hr := fresh "Hr" in
  destruct L as (r & E & Hr);
  rewrite (sbind_eq _ _ _ _ _ E); clear E.

(** Both runs went the same way: split on the outcome of the step. *)
Ltac same_way r Hr :=
  let a := fresh "a" in
  let se := fresh "se" in
  destruct r as [a | se];
  match type of Hr with
  | related_outcome _ _ ?f =>
      let b := fresh "b" in
      let ex := fresh "ex" in
      let Ef := fresh "Ef" in
      destruct f as [b | ex] eqn:Ef
  end;
  cbn [related_outcome] in Hr; try contradiction; cbn [bind].

(** The run stops here with the failure of the last step. *)
Ltac stops_with ext Hr :=
  eexists; exists ext; split;
  [rewrite <- ?app_assoc; reflexivity | exact Hr].

(** The same, for a step whose functional result is already known. *)
Ltac known_way r Hr :=
  let a := fresh "a" in
  let se := fresh "se" in
  destruct r as [a | se]; cbn [related_outcome] in Hr; try contradiction.

(** Two stores that differ in how their locations are written. *)
Ltac same_heap :=
  rewrite ?length_app; cbn [length]; rewrite ?length_app; cbn [length];
  repeat match goal with
    | |- (_, _) = (_, _) => f_equal
    | |- _ ++ _ = _ ++ _ => f_equal
    | |- _ :: _ = _ :: _ => f_equal
    | |- Store.ODict _ = Store.ODict _ => f_equal
    | |- Store.SRef _ = Store.SRef _ => f_equal
    | |- Some _ = Some _ => f_equal
    | |- Store.assoc_set _ _ _ = Store.assoc_set _ _ _ => f_equal
    end;
  try reflexivity; try lia.

(** Write a store as the old part followed by the new objects. *)
Ltac norm_heap :=
  repeat first [rewrite <- app_assoc | progress cbn [app]].

(** The object number [k] among those allocated after [P]. *)
Ltac at_new k :=
  match goal with
  | |- nth_error (?HT ++ _ :: ?P ++ _) ?n = _ =>
      replace n with (length HT + S (length P + k))
        by (rewrite ?length_app; cbn [length]; rewrite ?length_app;
            cbn [length]; lia);
      rewrite nth_error_fresh; cbn [nth_error];
      rewrite nth_error_fresh; reflexivity
  end.

(** *** The rules, run in the store *)
Section StoreRules.

Local Abbreviation owner_rule := resolve_owner (only parsing).

Import Store.

Variable h0 : heap.
Variable sentry : svalue.
Variable e : dict.
Hypothesis Hentry : repr h0 sentry (VDict e).

Lemma communities_refines (H : heap) :
  keeps h0 H ->
  exists r ext,
    Store._communities sentry H = (r, H ++ ext) /\
    related_outcome (stable_repr h0 (length H) ext) r
      (ParentRecordEntry._communities e).
Proof.
  intros Hk.
  assert (Hk1 : keeps h0 (H ++ [ODict []])) by now apply keeps_app.
  unfold Store._communities, ParentRecordEntry._communities.
  rewrite sbind_alloc.
  read_step (getitem_repr h0 _ Hk1 sentry _ "json" Hentry).
  cbn [Py.getitem] in Hr. same_way r Hr; [| stops_with [ODict []] Hr].
  read_step (get_repr h0 _ Hk1 a SNone b VNone "communities" Hr (repr_none h0)).
  same_way r Hr0; [| stops_with [ODict []] Hr0].
  rewrite sbind_truthy, (truthy_repr h0 _ Hk1 a0 b0 Hr0).
  destruct (Py.truthy b0).
  - read_step (iterate_repr h0 _ Hk1 a0 b0 Hr0).
    same_way r Hr1; [| stops_with [ODict []] Hr1].
    rewrite sbind_alloc, <- app_assoc. cbn [app].
    pose proof (filter_repr h0 _ _ a1 b1 (keep_slug_repr h0) Hr1) as Hslugs.
    revert Hslugs.
    generalize (filter keep_slug a1) as kept.
    generalize (filter ParentRecordEntry.keep_slug b1) as slugs.
    intros slugs kept Hslugs.
    rewrite (sbind_eq _ _ _ _ _ (setitem_at _ _ _ _ _ (nth_error_new _ _ _))).
    rewrite update_new. cbn [assoc_set].
    assert (Eitems : forall o,
              list_items (SRef (length (H ++ [ODict []])))
                (H ++ [o; OList kept]) = (SOk kept, H ++ [o; OList kept])).
    { intros o. unfold list_items, reading. cbn [deref].
      rewrite length_app. now rewrite nth_error_fresh. }
    rewrite (sbind_eq _ _ _ _ _ (Eitems _)). clear Eitems.
    assert (Hshape :
      exists sd d,
        repr h0 sd d /\
        match kept with
        | [slug] => setitem (SRef (length H)) "default" slug
        | _ => setitem (SRef (length H)) "default" SNone
        end = setitem (SRef (length H)) "default" sd /\
        match slugs with
        | [slug] =>
            Ok (VDict (dict_set "default" slug
                         (dict_set "ids" (VList slugs) [])))
        | _ =>
            Ok (VDict (dict_set "default" VNone
                         (dict_set "ids" (VList slugs) [])))
        end = Ok (VDict [("ids", VList slugs); ("default", d)])).
    { destruct Hslugs as [| s v ss vs Hs [| s' v' ss' vs' Hs' Hrest]].
      - exists SNone, VNone. repeat split. constructor.
      - exists s, v. repeat split. assumption.
      - exists SNone, VNone. repeat split. constructor. }
    destruct Hshape as (sd & d & Hd & -> & ->).
    rewrite (sbind_eq _ _ _ _ _ (setitem_at _ _ _ _ _ (nth_error_new _ _ _))).
    rewrite update_new. cbn [assoc_set String.eqb Ascii.eqb Bool.eqb].
    eexists. eexists. split; [reflexivity |].
    intros H' Hk' Hat.
    apply (repr_dict H' _ [("ids", SRef (length (H ++ [ODict []])));
                           ("default", sd)]).
    + rewrite <- (Nat.add_0_r (length H)). now apply Hat.
    + repeat constructor; cbn [fst snd].
      * apply (repr_list H' _ kept).
        -- rewrite length_app. now apply Hat.
        -- eapply Forall2_impl; [| exact Hslugs].
           intros sv v. now apply repr_keeps.
      * now apply (repr_keeps h0).
  - eexists. exists [ODict []]. split; [reflexivity |].
    intros H' Hk' Hat. apply (repr_dict H' _ []).
    + rewrite <- (Nat.add_0_r (length H)). now apply Hat.
    + constructor.
Qed.

Lemma related_fields_keeps (H : heap) (sf : list (string * svalue)) (f : dict) :
  keeps h0 H ->
  related_fields (repr h0) sf f ->
  related_fields (repr H) sf f.
Proof.
  intros Hk Hf. eapply Forall2_impl; [| exact Hf].
  intros [k sv] [k' v] [Hkey Hv]. split; [exact Hkey |].
  now apply (repr_keeps h0).
Qed.

(** The [doi] member of [pids]: a new dictionary, stored into [pids]. *)
Lemma pids_doi_entry (H : heap) (sfields : list (string * svalue))
    (fields : dict) :
  related_fields (repr h0) sfields fields ->
  exists r ext,
    (doi_entry <~ alloc (ODict sfields) ;;
     _ <~ setitem (SRef (length H)) "doi" doi_entry ;;
     ret (SRef (length H))) (H ++ [ODict []]) = (r, H ++ ext) /\
    related_outcome (stable_repr h0 (length H) ext) r
      (Ok (VDict (dict_set "doi" (VDict fields) []))).
Proof.
  intros Hf.
  rewrite sbind_alloc, <- app_assoc. cbn [app].
  rewrite (sbind_eq _ _ _ _ _ (setitem_at _ _ _ _ _ (nth_error_new _ _ _))).
  rewrite update_new. cbn [assoc_set].
  eexists. eexists. split; [reflexivity |].
  intros H' Hk' Hat.
  apply (repr_dict H' _ [("doi", SRef (length (H ++ [ODict []])))]).
  - rewrite <- (Nat.add_0_r (length H)). now apply Hat.
  - repeat constructor; cbn [fst snd].
    apply (repr_dict H' _ sfields).
    + rewrite length_app. now apply Hat.
    + now apply related_fields_keeps.
Qed.

Lemma pids_refines (H : heap) :
  keeps h0 H ->
  exists r ext,
    Store._pids sentry H = (r, H ++ ext) /\
    related_outcome (stable_repr h0 (length H) ext) r
      (ParentRecordEntry._pids e).
Proof.
  intros Hk.
  assert (Hk1 : keeps h0 (H ++ [ODict []])) by now apply keeps_app.
  assert (Hempty : stable_repr h0 (length H) [ODict []] (SRef (length H))
                     (VDict [])).
  { intros H' Hk' Hat. apply (repr_dict H' _ []).
    - rewrite <- (Nat.add_0_r (length H)). now apply Hat.
    - constructor. }
  unfold Store._pids, ParentRecordEntry._pids.
  rewrite sbind_alloc.
  read_step (getitem_repr h0 _ Hk1 sentry _ "json" Hentry).
  cbn [Py.getitem] in Hr. same_way r Hr; [| stops_with [ODict []] Hr].
  read_step (getitem_repr h0 _ Hk1 a b "$schema" Hr).
  same_way r Hr0; [| stops_with [ODict []] Hr0].
  read_step (contains_repr h0 _ Hk1 "deposits" a0 b0 Hr0).
  same_way r Hr1; [| stops_with [ODict []] Hr1]. subst a1.
  read_step (getitem_repr h0 _ Hk1 sentry _ "json" Hentry).
  cbn [Py.getitem] in Hr1. rewrite Ef in Hr1. known_way r Hr1.
  read_step (get_repr h0 _ Hk1 a1 SNone b VNone "doi" Hr1 (repr_none h0)).
  same_way r Hr2; [| stops_with [ODict []] Hr2].
  read_step (getitem_repr h0 _ Hk1 sentry _ "json" Hentry).
  cbn [Py.getitem] in Hr3. rewrite Ef in Hr3. known_way r Hr3.
  read_step (get_repr h0 _ Hk1 a3 SNone b VNone "conceptdoi" Hr3 (repr_none h0)).
  same_way r Hr4; [| stops_with [ODict []] Hr4].
  rewrite sbind_truthy, (truthy_repr h0 _ Hk1 a2 b2 Hr2).
  assert (Hdone : exists r ext,
             ret (SRef (length H)) (H ++ [ODict []]) = (r, H ++ ext) /\
             related_outcome (stable_repr h0 (length H) ext) r
               (Ok (VDict []))).
  { eexists. exists [ODict []]. split; [reflexivity | exact Hempty]. }
  destruct (Py.truthy b2).
  - read_step (startswith_repr h0 (H ++ [ODict []]) a2 b2
                 ZENODO_DATACITE_PREFIXES Hr2).
    same_way r Hr5; [| stops_with [ODict []] Hr5]. subst a5.
    destruct b4; [| exact Hdone].
    rewrite sbind_truthy, (truthy_repr h0 _ Hk1 a4 b3 Hr4).
    destruct (Py.truthy b3).
    + apply pids_doi_entry. repeat constructor. exact Hr4.
    + destruct b1; cbn [negb]; [exact Hdone |].
      apply pids_doi_entry. repeat constructor.
  - rewrite sbind_ret. cbn [bind]. exact Hdone.
Qed.

(** **** Owner resolution *)

Lemma old_or_empty_app (H ext : heap) (sv : svalue) (v : value) :
  old_or_empty h0 H sv v -> old_or_empty h0 (H ++ ext) sv v.
Proof.
  intros [Hold | (l & -> & Hnew)]; [now left | right].
  exists l. split; [reflexivity |].
  destruct Hnew as [[Hl ->] | [Hl ->]]; [left | right]; split; auto;
    (rewrite nth_error_app1; [assumption | apply nth_error_Some; congruence]).
Qed.

Lemma truthy_old_or_empty (H : heap) (sv : svalue) (v : value) :
  keeps h0 H -> old_or_empty h0 H sv v -> truthy_in H sv = Py.truthy v.
Proof.
  intros Hk [Hold | (l & -> & [[Hl ->] | [Hl ->]])].
  - now apply (truthy_repr h0).
  - cbn. now rewrite Hl.
  - cbn. now rewrite Hl.
Qed.

Lemma get_old_or_empty (H : heap) (sv : svalue) (v : value) (k : string) :
  keeps h0 H -> old_or_empty h0 H sv v ->
  exists r,
    Store.get sv k SNone H = (r, H) /\
    related_outcome (repr h0) r (Py.get v k VNone).
Proof.
  intros Hk [Hold | (l & -> & [[Hl ->] | [Hl ->]])].
  - apply (get_repr h0 H Hk); [assumption | constructor].
  - unfold Store.get, reading. cbn. rewrite Hl. eexists. split; reflexivity.
  - unfold Store.get, reading. cbn. rewrite Hl. eexists.
    split; [reflexivity | constructor].
Qed.

Lemma iterate_old_or_empty (H : heap) (sv : svalue) (v : value) :
  keeps h0 H -> old_or_empty h0 H sv v ->
  exists r,
    Store.iterate sv H = (r, H) /\
    related_outcome (Forall2 (repr h0)) r (Py.iterate v).
Proof.
  intros Hk [Hold | (l & -> & [[Hl ->] | [Hl ->]])].
  - now apply (iterate_repr h0).
  - unfold Store.iterate, reading. rewrite Hl. eexists.
    split; [reflexivity | constructor].
  - unfold Store.iterate, reading. rewrite Hl. eexists.
    split; [reflexivity | constructor].
Qed.

(** [x.get(k, {})] on an old object with the display just evaluated. *)
Lemma get_default_new (H : heap) (sv sd : svalue) (v d : value) (k : string) :
  keeps h0 H -> repr h0 sv v -> old_or_empty h0 H sd d ->
  exists r,
    Store.get sv k sd H = (r, H) /\
    related_outcome (old_or_empty h0 H) r (Py.get v k d).
Proof.
  intros Hk r Hd. unfold Store.get, reading. eexists. split; [reflexivity |].
  destruct v; try (inversion r; subst; cbn; reflexivity).
  - destruct (old_list h0 H Hk sv l r) as (loc & si & -> & Hl & Hi).
    cbn. rewrite Hl. reflexivity.
  - destruct (old_dict h0 H Hk sv d0 r) as (loc & sf & -> & Hl & Hf).
    cbn. rewrite Hl. pose proof (related_get _ sf d0 k Hf) as Hg.
    destruct (assoc_get k sf), (dict_get k d0); cbn; try tauto.
    now left.
Qed.

(** [x or []] *)
Lemma or_else_list (H : heap) (sv : svalue) (v : value) :
  keeps h0 H -> repr h0 sv v ->
  exists r ext,
    or_else sv (alloc (OList [])) H = (SOk r, H ++ ext) /\
    old_or_empty h0 (H ++ ext) r (py_or v (VList [])).
Proof.
  intros Hk Hv. unfold or_else, py_or.
  rewrite sbind_truthy, (truthy_repr h0 H Hk sv v Hv).
  destruct (Py.truthy v).
  - exists sv, []. rewrite app_nil_r. split; [reflexivity | now left].
  - exists (SRef (length H)), [OList []]. split; [reflexivity | right].
    exists (length H). split; [reflexivity | left].
    split; [apply nth_error_new | reflexivity].
Qed.

Lemma resolve_owner_refines (H : heap) (jv : value) :
  keeps h0 H ->
  dict_getitem "json" e = Ok jv ->
  exists r ext,
    Store.resolve_owner sentry H = (r, H ++ ext) /\
    related_outcome (repr h0) r (owner_rule jv).
Proof.
  intros Hk Hjson. unfold Store.resolve_owner, owner_rule.
  read_step (getitem_repr h0 _ Hk sentry _ "json" Hentry).
  cbn [Py.getitem] in Hr. rewrite Hjson in Hr. known_way r Hr.
  read_step (get_repr h0 _ Hk a SNone jv VNone "owners" Hr (repr_none h0)).
  same_way r Hr0;
    [| eexists; exists []; split; [now rewrite app_nil_r | exact Hr0]].
  destruct (or_else_list H a0 b Hk Hr0) as (owners & x1 & E1 & Howners).
  rewrite (sbind_eq _ _ _ _ _ E1). clear E1.
  assert (Hk1 : keeps h0 (H ++ x1)) by now apply keeps_app.
  read_step (getitem_repr h0 _ Hk1 sentry _ "json" Hentry).
  cbn [Py.getitem] in Hr1. rewrite Hjson in Hr1. known_way r Hr1.
  rewrite sbind_alloc.
  assert (Hk2 : keeps h0 ((H ++ x1) ++ [ODict []])) by now apply keeps_app.
  assert (Hnew : old_or_empty h0 ((H ++ x1) ++ [ODict []])
                   (SRef (length (H ++ x1))) (VDict [])).
  { right. eexists. split; [reflexivity | right].
    split; [apply nth_error_new | reflexivity]. }
  read_step (get_default_new _ _ _ _ _ "_deposit" Hk2 Hr1 Hnew).
  same_way r Hr2; [| stops_with (x1 ++ [ODict []]) Hr2].
  read_step (get_old_or_empty _ _ _ "owners" Hk2 Hr2).
  same_way r Hr3; [| stops_with (x1 ++ [ODict []]) Hr3].
  destruct (or_else_list _ a3 b1 Hk2 Hr3) as (downers & x2 & E2 & Hdowners).
  rewrite (sbind_eq _ _ _ _ _ E2). clear E2.
  assert (Hk3 : keeps h0 (((H ++ x1) ++ [ODict []]) ++ x2))
    by now apply keeps_app.
  assert (Howners3 : old_or_empty h0 (((H ++ x1) ++ [ODict []]) ++ x2)
                       owners (py_or b (VList []))).
  { now do 2 apply old_or_empty_app. }
  assert (Hchosen : exists chosen,
             or_else owners (ret downers)
               (((H ++ x1) ++ [ODict []]) ++ x2) =
             (SOk chosen, ((H ++ x1) ++ [ODict []]) ++ x2) /\
             old_or_empty h0 (((H ++ x1) ++ [ODict []]) ++ x2) chosen
               (py_or (py_or b (VList [])) (py_or b1 (VList [])))).
  { unfold or_else. rewrite sbind_truthy.
    rewrite (truthy_old_or_empty _ _ _ Hk3 Howners3).
    revert Howners3. generalize (py_or b (VList [])) as ob. intros ob Hob.
    unfold py_or at 1. destruct (Py.truthy ob);
      eexists; split; try reflexivity; assumption. }
  destruct Hchosen as (chosen & E3 & Hchosen).
  rewrite (sbind_eq _ _ _ _ _ E3). clear E3.
  unfold next_or_none.
  read_step (iterate_old_or_empty _ _ _ Hk3 Hchosen).
  same_way r Hr4; [| stops_with (x1 ++ [ODict []] ++ x2) Hr4].
  eexists. exists (x1 ++ [ODict []] ++ x2).
  split; [rewrite <- !app_assoc; reflexivity |].
  destruct Hr4 as [| sv v si it Hv Hrest]; [constructor | exact Hv].
Qed.

End StoreRules.

(** *** Writing new objects *)
Section StoreWrites.

Import Store.

Lemma assoc_get_set_same {V : Type} (k : string) (v : V)
    (d : list (string * V)) :
  assoc_get k (assoc_set k v d) = Some v.
Proof.
  induction d as [| [k' v'] d IH]; cbn.
  - now rewrite String.eqb_refl.
  - destruct (String.eqb k k') eqn:E; cbn; rewrite E; auto.
Qed.

Lemma related_set (R : svalue -> value -> Prop)
    (sf : list (string * svalue)) (f : dict) (k : string)
    (sv : svalue) (v : value) :
  related_fields R sf f -> R sv v ->
  related_fields R (assoc_set k sv sf) (dict_set k v f).
Proof.
  intros Hf Hv.
  induction Hf as [| [k1 sv1] [k2 v1] sf f [Hk H1] Hrest IH]; cbn.
  - repeat constructor; assumption.
  - cbn in Hk. subst k2. destruct (String.eqb k k1).
    + constructor; [split; [reflexivity | assumption] | assumption].
    + constructor; [split; [reflexivity | assumption] | assumption].
Qed.

Lemma nth_error_at (X Y : heap) (o : object) (n : loc) :
  length X = n -> nth_error (X ++ o :: Y) n = Some o.
Proof. intros <-. apply nth_error_new. Qed.

Lemma update_at (X Y : heap) (o o' : object) (n : loc) :
  length X = n -> update n o' (X ++ o :: Y) = X ++ o' :: Y.
Proof. intros <-. apply update_new. Qed.

Variable h0 : heap.
Variable sentry : svalue.
Variable e : dict.
Hypothesis Hentry : repr h0 sentry (VDict e).

(** The direct-field copy writes to [transformed], the newest object. *)
Lemma load_partial_refines (X : heap) (keys : list string) :
  keeps h0 X ->
  forall (F : list (string * svalue)) (D : dict),
    related_fields (repr h0) F D ->
    exists F',
      Store._load_partial sentry (SRef (length X)) keys (X ++ [ODict F]) =
        (SOk tt, X ++ [ODict F']) /\
      related_fields (repr h0) F' (ParentRecordEntry._load_partial e D keys).
Proof.
  intros Hk. induction keys as [| key keys IH]; intros F D HF.
  - exists F. split; [reflexivity | exact HF].
  - cbn [Store._load_partial ParentRecordEntry._load_partial].
    assert (Hk1 : keeps h0 (X ++ [ODict F])) by now apply keeps_app.
    assert (Hstep : forall (m : svalue -> M svalue) (f : dict -> result value),
               (exists r, m sentry (X ++ [ODict F]) = (r, X ++ [ODict F]) /\
                          related_outcome (repr h0) r (f e)) ->
               exists F1,
                 (fun h =>
                    match m sentry h with
                    | (SOk v, h') => setitem (SRef (length X)) key v h'
                    | (SRaise _, h') => (SOk tt, h')
                    end) (X ++ [ODict F]) = (SOk tt, X ++ [ODict F1]) /\
                 related_fields (repr h0) F1
                   match f e with
                   | Ok v => dict_set key v D
                   | Raise _ => D
                   end).
    { intros m f (r & E & Hr). cbv beta. rewrite E.
      destruct r as [v | se]; destruct (f e) as [t | ex];
        cbn [related_outcome] in Hr; try contradiction.
      - rewrite (setitem_at _ _ _ _ _ (nth_error_new _ _ _)), update_new.
        eexists. split; [reflexivity |]. now apply related_set.
      - exists F. split; [reflexivity | exact HF]. }
    assert (Hacc : exists F1,
               match Store.accessor key with
               | Some method =>
                   fun h =>
                     match method sentry h with
                     | (SOk v, h') => setitem (SRef (length X)) key v h'
                     | (SRaise _, h') => (SOk tt, h')
                     end
               | None => ret tt
               end (X ++ [ODict F]) = (SOk tt, X ++ [ODict F1]) /\
               related_fields (repr h0) F1
                 match ParentRecordEntry.accessor key with
                 | Some method =>
                     match method e with
                     | Ok v => dict_set key v D
                     | Raise _ => D
                     end
                 | None => D
                 end).
    { unfold Store.accessor, ParentRecordEntry.accessor.
      destruct (String.eqb key "created");
        [| destruct (String.eqb key "updated");
           [| destruct (String.eqb key "version_id")]].
      - apply (Hstep Store._created ParentRecordEntry._created).
        apply (getitem_repr h0 _ Hk1 sentry (VDict e) "created" Hentry).
      - apply (Hstep Store._updated ParentRecordEntry._updated).
        apply (getitem_repr h0 _ Hk1 sentry (VDict e) "updated" Hentry).
      - apply (Hstep Store._version_id ParentRecordEntry._version_id).
        apply (getitem_repr h0 _ Hk1 sentry (VDict e) "version_id" Hentry).
      - exists F. split; [reflexivity | exact HF]. }
    destruct Hacc as (F1 & E1 & HF1).
    rewrite (sbind_eq _ _ _ _ _ E1).
    apply IH. exact HF1.
Qed.

End StoreWrites.

(** *** The ownership and access rules, run in the store *)
Section AccessWrites.

Import Store.

Lemma assoc_set_absent {V : Type} (k : string) (v : V)
    (d : list (string * V)) :
  assoc_get k d = None -> assoc_set k v d = d ++ [(k, v)].
Proof.
  induction d as [| [k' v'] d IH]; cbn; [reflexivity |].
  destruct (String.eqb k k'); [discriminate |].
  intros Hd. now rewrite IH.
Qed.

Lemma assoc_set_last {V : Type} (k : string) (v v' : V)
    (d : list (string * V)) :
  assoc_get k d = None ->
  assoc_set k v' (d ++ [(k, v)]) = d ++ [(k, v')].
Proof.
  induction d as [| [k' w] d IH]; cbn.
  - now rewrite String.eqb_refl.
  - destruct (String.eqb k k'); [discriminate |].
    intros Hd. now rewrite IH.
Qed.

Lemma assoc_get_last {V : Type} (k : string) (v : V)
    (d : list (string * V)) :
  assoc_get k d = None -> assoc_get k (d ++ [(k, v)]) = Some v.
Proof.
  intros Hd. rewrite <- (assoc_set_absent k v d Hd).
  apply assoc_get_set_same.
Qed.

Lemma app_three {A : Type} (X : list A) (a b c : A) :
  X ++ [a; b; c] = (X ++ [a; b]) ++ [c].
Proof. now rewrite <- app_assoc. Qed.

Lemma setdefault_absent (l : loc) (d : list (string * svalue)) (k : string)
    (x : svalue) (h : heap) :
  nth_error h l = Some (ODict d) ->
  assoc_get k d = None ->
  setdefault (SRef l) k x h = (SOk tt, update l (ODict (d ++ [(k, x)])) h).
Proof.
  unfold setdefault. intros -> Hd. rewrite Hd.
  now rewrite assoc_set_absent.
Qed.

Lemma setdefault_present (l : loc) (d : list (string * svalue)) (k : string)
    (x y : svalue) (h : heap) :
  nth_error h l = Some (ODict d) ->
  assoc_get k d = Some y ->
  setdefault (SRef l) k x h = (SOk tt, h).
Proof. unfold setdefault. now intros -> ->. Qed.

(** [transformed] sits at [tl] and holds the target [json] dictionary,
    which is the first object after [HT]. *)
Variable HT : heap.
Variable tl : loc.
Variable FT : list (string * svalue).
Hypothesis HreadT : forall Y, nth_error (HT ++ Y) tl = Some (ODict FT).
Hypothesis HjsonT : assoc_get "json" FT = Some (SRef (length HT)).

Lemma write_owner_run (Jf : list (string * svalue)) (Post : heap)
    (owner : svalue) :
  owner <> SNone ->
  assoc_get "access" Jf = None ->
  write_owner (SRef tl) owner (HT ++ ODict Jf :: Post) =
  (SOk tt,
   HT ++ ODict (Jf ++ [("access",
                        SRef (length (HT ++ ODict Jf :: Post) + 2))])
      :: Post ++ [ODict [];
                  ODict [("user", owner)];
                  ODict [("owned_by",
                          SRef (length (HT ++ ODict Jf :: Post) + 1))]]).
Proof.
  intros Hne Habsent.
  assert (E : write_owner (SRef tl) owner =
              (tjson <~ getitem (SRef tl) "json" ;;
               empty <~ alloc (ODict []) ;;
               _ <~ setdefault tjson "access" empty ;;
               owned_by <~ alloc (ODict [("user", owner)]) ;;
               access <~ alloc (ODict [("owned_by", owned_by)]) ;;
               tjson <~ getitem (SRef tl) "json" ;;
               setitem tjson "access" access)).
  { destruct owner; try reflexivity. now contradiction Hne. }
  rewrite E. clear E.
  rewrite (sbind_eq _ _ _ _ _ (getitem_at _ _ _ _ _ (HreadT _) HjsonT)).
  rewrite sbind_alloc. norm_heap.
  rewrite (sbind_eq _ _ _ _ _
             (setdefault_absent _ _ _ _ _ (nth_error_new _ _ _) Habsent)).
  rewrite update_new.
  rewrite sbind_alloc. norm_heap.
  rewrite sbind_alloc. norm_heap.
  rewrite (sbind_eq _ _ _ _ _ (getitem_at _ _ _ _ _ (HreadT _) HjsonT)).
  rewrite (setitem_at _ _ _ _ _ (nth_error_new _ _ _)).
  rewrite update_new, (assoc_set_last _ _ _ _ Habsent).
  norm_heap.
  same_heap.
Qed.

(** The tail of lines 105-113 when no [access] member exists yet. *)
Lemma write_settings_fresh (Jf : list (string * svalue)) (Post : heap)
    (sfields : list (string * svalue)) :
  assoc_get "access" Jf = None ->
  (tjson <~ getitem (SRef tl) "json" ;;
   empty <~ alloc (ODict []) ;;
   _ <~ setdefault tjson "access" empty ;;
   settings <~ alloc (ODict sfields) ;;
   tjson <~ getitem (SRef tl) "json" ;;
   access <~ getitem tjson "access" ;;
   setitem access "settings" settings) (HT ++ ODict Jf :: Post) =
  (SOk tt,
   HT ++ ODict (Jf ++ [("access", SRef (length (HT ++ ODict Jf :: Post)))])
      :: Post ++ [ODict [("settings",
                          SRef (length (HT ++ ODict Jf :: Post) + 1))];
                  ODict sfields]).
Proof.
  intros Habsent.
  rewrite (sbind_eq _ _ _ _ _ (getitem_at _ _ _ _ _ (HreadT _) HjsonT)).
  rewrite sbind_alloc. norm_heap.
  rewrite (sbind_eq _ _ _ _ _
             (setdefault_absent _ _ _ _ _ (nth_error_new _ _ _) Habsent)).
  rewrite update_new.
  rewrite sbind_alloc. norm_heap.
  rewrite (sbind_eq _ _ _ _ _ (getitem_at _ _ _ _ _ (HreadT _) HjsonT)).
  rewrite (sbind_eq _ _ _ _ _
             (getitem_at _ _ _ _ _ (nth_error_new _ _ _)
                (assoc_get_last _ _ _ Habsent))).
  assert (Hsplit : forall J,
             HT ++ ODict J :: Post ++ [ODict []; ODict sfields] =
             (HT ++ ODict J :: Post) ++ ODict [] :: [ODict sfields]).
  { intros J. norm_heap. reflexivity. }
  assert (Hlen : forall J,
             length (HT ++ ODict J :: Post) =
             length (HT ++ ODict Jf :: Post)).
  { intros J. rewrite !length_app. reflexivity. }
  rewrite Hsplit.
  rewrite (setitem_at _ _ _ _ _ (nth_error_at _ _ _ _ (Hlen _))).
  rewrite (update_at _ _ _ _ _ (Hlen _)).
  cbn [assoc_set]. norm_heap.
  same_heap.
Qed.

(** The same tail when the ownership rule left an [access] member, the
    newest object at that point. *)
Lemma write_settings_owned (Jf Af : list (string * svalue)) (Post : heap)
    (sfields : list (string * svalue)) :
  assoc_get "access" Jf = Some (SRef (length (HT ++ ODict Jf :: Post))) ->
  (tjson <~ getitem (SRef tl) "json" ;;
   empty <~ alloc (ODict []) ;;
   _ <~ setdefault tjson "access" empty ;;
   settings <~ alloc (ODict sfields) ;;
   tjson <~ getitem (SRef tl) "json" ;;
   access <~ getitem tjson "access" ;;
   setitem access "settings" settings)
    (HT ++ ODict Jf :: Post ++ [ODict Af]) =
  (SOk tt,
   HT ++ ODict Jf
      :: Post ++ [ODict (assoc_set "settings"
                           (SRef (length (HT ++ ODict Jf :: Post) + 2)) Af);
                  ODict [];
                  ODict sfields]).
Proof.
  intros Haccess.
  rewrite (sbind_eq _ _ _ _ _ (getitem_at _ _ _ _ _ (HreadT _) HjsonT)).
  rewrite sbind_alloc. norm_heap.
  rewrite (sbind_eq _ _ _ _ _
             (setdefault_present _ _ _ _ _ _ (nth_error_new _ _ _) Haccess)).
  rewrite sbind_alloc. norm_heap.
  rewrite (sbind_eq _ _ _ _ _ (getitem_at _ _ _ _ _ (HreadT _) HjsonT)).
  rewrite (sbind_eq _ _ _ _ _
             (getitem_at _ _ _ _ _ (nth_error_new _ _ _) Haccess)).
  replace (HT ++ ODict Jf :: Post ++ [ODict Af; ODict []; ODict sfields])
    with ((HT ++ ODict Jf :: Post) ++ ODict Af :: [ODict []; ODict sfields])
    by (norm_heap; reflexivity).
  rewrite (setitem_at _ _ _ _ _ (nth_error_new _ _ _)), update_new.
  norm_heap.
  same_heap.
Qed.

End AccessWrites.

(** *** [transform], run in the store *)
Section StoreTransform.

Local Abbreviation owner_rule := resolve_owner (only parsing).

Import Store.

Variable h0 : heap.
Variable sentry : svalue.
Variable e : dict.
Hypothesis Hentry : repr h0 sentry (VDict e).

Lemma failed_alike (H : heap) (se : sexn) (ex : exn) :
  related_outcome (fun _ _ : unit => True) (SRaise se) (Raise ex) ->
  repr_exn H se ex.
Proof. destruct se, ex; cbn; tauto. Qed.

Lemma transform_refines (self : loc) (p : bool) (H : heap) :
  keeps h0 H ->
  instance_partial h0 self p ->
  exists r ext,
    Store.transform (SRef self) sentry H = (r, H ++ ext) /\
    represents (H ++ ext) r (ParentRecordEntry.transform p e).
Proof.
  intros Hk (attrs & Hself & Hpartial).
  unfold Store.transform. rewrite sbind_alloc.
  destruct (load_partial_refines h0 sentry e Hentry H
              ["created"; "updated"; "version_id"] Hk [] []
              (Forall2_nil _)) as (F & EF & HF).
  rewrite (sbind_eq _ _ _ _ _ EF). clear EF.
  change (ParentRecordEntry._load_partial e []
            ["created"; "updated"; "version_id"])
    with (direct_fields e) in HF.
  assert (Hk1 : keeps h0 (H ++ [ODict F])) by now apply keeps_app.
  read_step (contains_repr h0 _ Hk1 "json" sentry (VDict e) Hentry).
  cbn [Py.contains] in Hr. known_way r Hr. subst a.
  unfold dict_contains.
  destruct (dict_get "json" e) as [jv |] eqn:Hjson.
  - (* [json] is there *)
    read_step (getitem_repr h0 _ Hk1 sentry (VDict e) "json" Hentry).
    cbn [Py.getitem] in Hr. unfold dict_getitem in Hr. rewrite Hjson in Hr.
    known_way r Hr.
    read_step (get_repr h0 _ Hk1 a SNone jv VNone "conceptrecid" Hr
                 (repr_none h0)).
    same_way r Hr0.
    2: { (* [json] is not a mapping *)
      assert (Ht : ParentRecordEntry.transform p e = Raise ex).
      { unfold ParentRecordEntry.transform, dict_contains, dict_getitem.
        rewrite Hjson. cbn [bind]. now rewrite Ef. }
      rewrite Ht. eexists. exists [ODict F]. split; [reflexivity |].
      exact (failed_alike _ _ _ Hr0). }
    destruct jv as [| | | | | j]; try discriminate Ef.
    assert (Hb : b = field "conceptrecid" j).
    { unfold field. cbn [Py.get] in Ef.
      destruct (dict_get "conceptrecid" j); congruence. }
    subst b. clear Ef.
    rewrite (transform_json_eq e j Hjson). unfold present.
    rewrite sbind_truthy, (truthy_repr h0 _ Hk1 _ _ Hr0).
    destruct (Py.truthy (field "conceptrecid" j)); cbn [negb].
    2: { eexists. exists [ODict F]. split; [reflexivity |].
         cbn [represents repr_exn]. now apply (repr_keeps h0). }
    destruct (communities_refines h0 sentry e Hentry _ Hk1)
      as (rc & ext_c & Ec & Hrc).
    rewrite (sbind_eq _ _ _ _ _ Ec). clear Ec.
    same_way rc Hrc.
    2: { eexists. exists ([ODict F] ++ ext_c).
         split; [now rewrite <- app_assoc |].
         exact (failed_alike _ _ _ Hrc). }
    unfold Store._schema at 1. rewrite sbind_ret.
    assert (Hk2 : keeps h0 ((H ++ [ODict F]) ++ ext_c)) by now apply keeps_app.
    destruct (pids_refines h0 sentry e Hentry _ Hk2)
      as (rp & ext_p & Ep & Hrp).
    rewrite (sbind_eq _ _ _ _ _ Ep). clear Ep.
    same_way rp Hrp.
    2: { eexists. exists ([ODict F] ++ ext_c ++ ext_p).
         split; [now rewrite <- !app_assoc |].
         exact (failed_alike _ _ _ Hrp). }
    rewrite sbind_alloc.
    remember (length (((H ++ [ODict F]) ++ ext_c) ++ ext_p)) as nJ eqn:HnJ.
    norm_heap.
    rewrite (sbind_eq _ _ _ _ _ (setitem_at _ _ _ _ _ (nth_error_new _ _ _))).
    rewrite update_new.
    remember (assoc_set "json" (SRef nJ) F) as F2 eqn:HF2.
    remember (H ++ ODict F2 :: ext_c ++ ext_p) as HT eqn:HHT.
    assert (Hsplit : forall Y, H ++ ODict F2 :: ext_c ++ ext_p ++ Y = HT ++ Y).
    { intros Y. subst HT. now norm_heap. }
    rewrite Hsplit.
    assert (HlenT : length HT = nJ).
    { subst HT nJ. rewrite !length_app. cbn [length]. rewrite !length_app.
      cbn [length]. lia. }
    assert (HreadT : forall Y, nth_error (HT ++ Y) (length H) = Some (ODict F2)).
    { intros Y. subst HT. norm_heap. apply nth_error_new. }
    assert (HjsonT : assoc_get "json" F2 = Some (SRef (length HT))).
    { rewrite HlenT, HF2. apply assoc_get_set_same. }
    assert (HkT : forall Y, keeps h0 (HT ++ Y)).
    { intros Y. subst HT. norm_heap. now apply keeps_app. }
    assert (HatC : forall Y,
               holds_at (length (H ++ [ODict F])) ext_c (HT ++ Y)).
    { intros Y. subst HT.
      replace ((H ++ ODict F2 :: ext_c ++ ext_p) ++ Y)
        with (((H ++ [ODict F2]) ++ ext_c) ++ (ext_p ++ Y))
        by now norm_heap.
      replace (length (H ++ [ODict F])) with (length (H ++ [ODict F2]))
        by (rewrite !length_app; reflexivity).
      apply holds_at_app. }
    assert (HatP : forall Y,
               holds_at (length ((H ++ [ODict F]) ++ ext_c)) ext_p (HT ++ Y)).
    { intros Y. subst HT.
      replace ((H ++ ODict F2 :: ext_c ++ ext_p) ++ Y)
        with ((((H ++ [ODict F2]) ++ ext_c) ++ ext_p) ++ Y)
        by now norm_heap.
      replace (length ((H ++ [ODict F]) ++ ext_c))
        with (length ((H ++ [ODict F2]) ++ ext_c))
        by (rewrite !length_app; reflexivity).
      apply holds_at_app. }
    assert (Hfinal : forall (Jfrag : list (string * svalue)) (frag : dict)
                            (Y : heap),
               related_fields
                 (repr (HT ++ ODict ([("$schema",
                                       SStr "local://records/parent-v3.0.0.json");
                                      ("id", a0); ("communities", a1);
                                      ("pids", a2)] ++ Jfrag) :: Y))
                 Jfrag frag ->
               repr (HT ++ ODict ([("$schema",
                                    SStr "local://records/parent-v3.0.0.json");
                                   ("id", a0); ("communities", a1);
                                   ("pids", a2)] ++ Jfrag) :: Y)
                 (SRef (length H))
                 (VDict (dict_set "json"
                           (VDict (skeleton e (field "conceptrecid" j) b b0
                                   ++ frag))
                           (direct_fields e)))).
    { intros Jfrag frag Y Hfrag.
      apply (repr_dict _ _ F2); [apply HreadT |].
      rewrite HF2. apply related_set.
      - now apply (related_fields_keeps h0).
      - apply (repr_dict _ nJ
                 ([("$schema", SStr "local://records/parent-v3.0.0.json");
                   ("id", a0); ("communities", a1); ("pids", a2)] ++ Jfrag)).
        + apply nth_error_at. exact HlenT.
        + apply Forall2_app; [| exact Hfrag].
          unfold skeleton, ParentRecordEntry._schema.
          repeat constructor; cbn [fst snd].
          * now apply (repr_keeps h0).
          * apply Hrc; [apply HkT | apply HatC].
          * apply Hrp; [apply HkT | apply HatP]. }
    assert (Hjson' : dict_getitem "json" e = Ok (VDict j)).
    { unfold dict_getitem. now rewrite Hjson. }
    match goal with
    | |- context [sbind (Store.resolve_owner sentry) _ (HT ++ ?Y)] =>
        destruct (resolve_owner_refines h0 sentry e Hentry (HT ++ Y) (VDict j)
                    (HkT Y) Hjson') as (ro & ext_o & Eo & Hro)
    end.
    rewrite (sbind_eq _ _ _ _ _ Eo). clear Eo.
    same_way ro Hro.
    2: { eexists. eexists. split; [subst HT; norm_heap; reflexivity |].
         exact (failed_alike _ _ _ Hro). }
    norm_heap.
    assert (Hws : forall Hc, keeps h0 Hc ->
              exists sac,
                repr h0 sac (field "access_conditions" j) /\
                write_settings sentry (SRef (length H)) Hc =
                (if Py.truthy (field "access_conditions" j) then
                   tjson <~ getitem (SRef (length H)) "json" ;;
                   empty <~ alloc (ODict []) ;;
                   _ <~ setdefault tjson "access" empty ;;
                   settings <~
                     alloc (ODict [("allow_user_requests", SBool true);
                                   ("allow_guest_requests", SBool true);
                                   ("accept_conditions_text", sac);
                                   ("secret_link_expiration", SInt 30)]) ;;
                   tjson <~ getitem (SRef (length H)) "json" ;;
                   access <~ getitem tjson "access" ;;
                   setitem access "settings" settings
                 else ret tt) Hc).
    { intros Hc Hkc. unfold write_settings.
      read_step (getitem_repr h0 _ Hkc sentry (VDict e) "json" Hentry).
      cbn [Py.getitem] in Hr1. rewrite Hjson' in Hr1. known_way r Hr1.
      read_step (get_repr h0 _ Hkc a4 SNone (VDict j) VNone
                   "access_conditions" Hr1 (repr_none h0)).
      assert (Eac : Py.get (VDict j) "access_conditions" VNone =
                    Ok (field "access_conditions" j)).
      { unfold field. cbn [Py.get].
        destruct (dict_get "access_conditions" j); reflexivity. }
      rewrite Eac in Hr2. known_way r Hr2.
      rewrite sbind_truthy, (truthy_repr h0 _ Hkc _ _ Hr2).
      exists a5. split; [exact Hr2 | reflexivity]. }
    assert (Hsettings : forall Hf sac,
              keeps h0 Hf -> repr h0 sac (field "access_conditions" j) ->
              related_fields (repr Hf)
                [("allow_user_requests", SBool true);
                 ("allow_guest_requests", SBool true);
                 ("accept_conditions_text", sac);
                 ("secret_link_expiration", SInt 30)]
                [("allow_user_requests", VBool true);
                 ("allow_guest_requests", VBool true);
                 ("accept_conditions_text", field "access_conditions" j);
                 ("secret_link_expiration", VInt 30)]).
    { intros Hf sac Hkf Hsac. repeat constructor; cbn [fst snd].
      now apply (repr_keeps h0). }
    assert (Hcase : (a3 = SNone /\ b1 = VNone) \/
                    (a3 <> SNone /\ b1 <> VNone)).
    { inversion Hro; subst; first [left; split; reflexivity
                                   | right; split; discriminate]. }
    destruct Hcase as [[-> ->] | [Hsome Hbsome]].
    + (* no owner *)
      cbn [write_owner]. rewrite sbind_ret.
      match goal with
      | |- context [sbind (write_settings _ _) _ (HT ++ ?Y)] =>
          destruct (Hws (HT ++ Y) (HkT Y)) as (sac & Hsac & Ews)
      end.
      unfold access_fragment.
      destruct (Py.truthy (field "access_conditions" j)).
      * rewrite (write_settings_fresh HT (length H) F2 HreadT HjsonT)
          in Ews by reflexivity.
        rewrite (sbind_eq _ _ _ _ _ Ews). clear Ews.
        unfold ret. rewrite <- Hsplit.
        eexists. eexists. split; [reflexivity |].
        rewrite Hsplit. cbn [represents]. apply Hfinal.
        repeat constructor; cbn [fst snd].
        eapply repr_dict; [at_new 0 |].
        repeat constructor; cbn [fst snd].
        eapply repr_dict; [at_new 1 |].
        apply Hsettings; [apply HkT | exact Hsac].
      * unfold ret in Ews. rewrite (sbind_eq _ _ _ _ _ Ews). clear Ews.
        unfold ret. rewrite <- Hsplit.
        eexists. eexists. split; [reflexivity |].
        rewrite Hsplit. cbn [represents].
        apply (Hfinal [] [] ext_o). constructor.
    + (* an owner *)
      assert (Hfrag : access_fragment b1 (field "access_conditions" j) =
                      if Py.truthy (field "access_conditions" j) then
                        [("access",
                          VDict [("owned_by", VDict [("user", b1)]);
                                 ("settings",
                                  access_settings
                                    (field "access_conditions" j))])]
                      else
                        [("access", VDict [("owned_by", VDict [("user", b1)])])]).
      { unfold access_fragment. destruct b1; try reflexivity.
        now contradiction Hbsome. }
      rewrite Hfrag. clear Hfrag.
      erewrite sbind_eq;
        [| apply (write_owner_run HT (length H) F2 HreadT HjsonT);
           [exact Hsome | reflexivity]].
      cbn [app].
      match goal with
      | |- context [sbind (write_settings _ _) _ (HT ++ ?Y)] =>
          destruct (Hws (HT ++ Y) (HkT Y)) as (sac & Hsac & Ews)
      end.
      destruct (Py.truthy (field "access_conditions" j)).
      * rewrite app_three in Ews. rewrite app_three.
        rewrite (write_settings_owned HT (length H) F2 HreadT HjsonT) in Ews
          by (cbn [assoc_get String.eqb Ascii.eqb Bool.eqb]; same_heap).
        rewrite (sbind_eq _ _ _ _ _ Ews). clear Ews.
        unfold ret. norm_heap. rewrite <- Hsplit.
        eexists. eexists. split; [reflexivity |].
        rewrite Hsplit. cbn [represents].
        apply (Hfinal [("access", SRef _)]).
        repeat constructor; cbn [fst snd].
        eapply repr_dict; [at_new 2 |].
        cbn [assoc_set String.eqb Ascii.eqb Bool.eqb].
        repeat constructor; cbn [fst snd].
        -- eapply repr_dict; [at_new 1 |].
           repeat constructor; cbn [fst snd].
           apply (repr_keeps h0); [apply HkT | exact Hro].
        -- eapply repr_dict; [at_new 4 |].
           apply Hsettings; [apply HkT | exact Hsac].
      * unfold ret in Ews. rewrite (sbind_eq _ _ _ _ _ Ews). clear Ews.
        unfold ret. rewrite <- Hsplit.
        eexists. eexists. split; [reflexivity |].
        rewrite Hsplit. cbn [represents].
        apply (Hfinal [("access", SRef _)]).
        repeat constructor; cbn [fst snd].
        eapply repr_dict; [at_new 2 |].
        repeat constructor; cbn [fst snd].
        eapply repr_dict; [at_new 1 |].
        repeat constructor; cbn [fst snd].
        apply (repr_keeps h0); [apply HkT | exact Hro].
  - (* no [json] key *)
    rewrite (transform_no_json p e Hjson).
    assert (Hself1 : nth_error (H ++ [ODict F]) self = Some (OInstance attrs)).
    { destruct Hk1 as [_ Hk1]. rewrite Hk1; [assumption |].
      apply nth_error_Some. congruence. }
    unfold getattr, reading at 1. unfold sbind at 1. cbn [deref].
    rewrite Hself1, Hpartial. rewrite sbind_truthy. cbn [truthy_in].
    destruct p; cbn [negb].
    + eexists. exists [ODict F]. split; [reflexivity |].
      cbn [represents]. apply (repr_dict _ _ F).
      * apply nth_error_new.
      * now apply (related_fields_keeps h0).
    + eexists. exists [ODict F]. split; reflexivity.
Qed.

End StoreTransform.

(** *** One tree per value *)
Section OneTree.

Import Store.

Lemma repr_functional (h : heap) (sv : svalue) (v v' : value) :
  repr h sv v -> repr h sv v' -> v = v'.
Proof.
  intros r. revert v'.
  induction r as [| b | n | s | l sitems items Hl Hitems
                  | l sfields fields Hl Hfields] using repr_induction;
    intros v' r'; inversion r' as [| | | | l' si' it' Hl' Hi' | l' sf' f' Hl' Hf'];
    subst; try reflexivity; try congruence.
  - rewrite Hl in Hl'. injection Hl' as <-. f_equal.
    clear Hl r'. revert it' Hi'.
    induction Hitems as [| x y xs ys [_ IHx] Hrest IH]; intros it' Hi';
      inversion Hi'; subst; [reflexivity |].
    f_equal; auto.
  - rewrite Hl in Hl'. injection Hl' as <-. f_equal.
    clear Hl r'. revert f' Hf'. unfold related_fields in Hfields.
    induction Hfields as [| [k x] [k1 y] xs ys [Hk [_ IHx]] Hrest IH];
      intros f' Hf'; inversion Hf' as [| ? [k2 y'] ? ? [Hk' Hy'] Hrest']; subst;
      [reflexivity |].
    cbn in Hk, Hk', IHx, Hy'. subst. f_equal; auto. f_equal. auto.
Qed.

Lemma represents_functional (h : heap) (r : outcome svalue) (f f' : result dict) :
  represents h r f -> represents h r f' -> f = f'.
Proof.
  destruct r as [sv | se], f as [out | ex], f' as [out' | ex'];
    cbn [represents]; try contradiction.
  - intros r r'. pose proof (repr_functional h sv _ _ r r') as E. congruence.
  - destruct se, ex, ex'; cbn [repr_exn]; try contradiction;
      try congruence.
    intros r r'. pose proof (repr_functional h draft _ _ r r') as E.
    congruence.
Qed.

Lemma represents_keeps (h H : heap) (r : outcome svalue) (f : result dict) :
  keeps h H -> represents h r f -> represents H r f.
Proof.
  intros Hk. destruct r as [sv | se], f as [out | ex]; cbn [represents];
    try contradiction.
  - now apply repr_keeps.
  - destruct se, ex; cbn [repr_exn]; try contradiction; auto.
    now apply repr_keeps.
Qed.

End OneTree.

(** C9: [transform] is deterministic.  Run twice in a row on the same
    entry by the same instance, in any store, it changes no object that
    existed before the call (the entry and the instance among them: each
    run only adds objects), and the two outcomes stand for the same
    mapping, or the same failure, which is the one [transform] gives for
    the tree of the entry and the flag of the instance: nothing that a
    run leaves behind reaches the next one. *)
Theorem transform_deterministic
    (h : Store.heap) (self entry : Store.loc) (p : bool) (e : dict) :
  instance_partial h self p ->
  repr h (Store.SRef entry) (VDict e) ->
  exists r1 ext1 r2 ext2,
    Store.transform (Store.SRef self) (Store.SRef entry) h = (r1, h ++ ext1) /\
    Store.transform (Store.SRef self) (Store.SRef entry) (h ++ ext1) =
      (r2, (h ++ ext1) ++ ext2) /\
    repr ((h ++ ext1) ++ ext2) (Store.SRef entry) (VDict e) /\
    instance_partial ((h ++ ext1) ++ ext2) self p /\
    forall f,
      (represents ((h ++ ext1) ++ ext2) r1 f <->
       f = ParentRecordEntry.transform p e) /\
      (represents ((h ++ ext1) ++ ext2) r2 f <->
       f = ParentRecordEntry.transform p e).
Proof.
  intros Hself Hentry.
  destruct (transform_refines h (Store.SRef entry) e Hentry self p h
              (keeps_refl h) Hself) as (r1 & ext1 & E1 & R1).
  assert (Hk1 : keeps h (h ++ ext1)) by (apply keeps_app, keeps_refl).
  destruct (transform_refines h (Store.SRef entry) e Hentry self p (h ++ ext1)
              Hk1 Hself) as (r2 & ext2 & E2 & R2).
  assert (Hk2 : keeps h ((h ++ ext1) ++ ext2)) by now apply keeps_app.
  assert (Hk12 : keeps (h ++ ext1) ((h ++ ext1) ++ ext2))
    by (apply keeps_app, keeps_refl).
  exists r1, ext1, r2, ext2. repeat split; try assumption.
  - now apply (repr_keeps h).
  - destruct Hself as (attrs & Hat & Hp). exists attrs. split; [| exact Hp].
    destruct Hk2 as [_ Hk2]. rewrite Hk2; [assumption |].
    apply nth_error_Some. congruence.
  - intros Hf. eapply represents_functional; [exact Hf |].
    now apply (represents_keeps (h ++ ext1)).
  - intros ->. now apply (represents_keeps (h ++ ext1)).
  - intros Hf. eapply represents_functional; [exact Hf | exact R2].
  - intros ->. exact R2.
Qed.

Lemma transform_deterministic_witness :
  exists r1 ext1 r2 ext2,
    let h := [Store.OInstance [("partial", Store.SBool false)];
              Store.OList [Store.SStr "zenodo"; Store.SStr "physics"];
              Store.OList [Store.SInt 7; Store.SInt 8];
              Store.ODict [("$schema", Store.SStr "records/record-v1.0.0.json");
                           ("conceptrecid", Store.SStr "1");
                           ("communities", Store.SRef 1);
                           ("doi", Store.SStr "10.5281/zenodo.2");
                           ("owners", Store.SRef 2);
                           ("access_conditions", Store.SStr "restricted")];
              Store.ODict [("created", Store.SStr "2020-01-01");
                           ("json", Store.SRef 3)]] in
    Store.transform (Store.SRef 0) (Store.SRef 4) h = (r1, h ++ ext1) /\
    Store.transform (Store.SRef 0) (Store.SRef 4) (h ++ ext1) =
      (r2, (h ++ ext1) ++ ext2).
Proof.
  destruct
    (transform_deterministic
       [Store.OInstance [("partial", Store.SBool false)];
        Store.OList [Store.SStr "zenodo"; Store.SStr "physics"];
        Store.OList [Store.SInt 7; Store.SInt 8];
        Store.ODict [("$schema", Store.SStr "records/record-v1.0.0.json");
                     ("conceptrecid", Store.SStr "1");
                     ("communities", Store.SRef 1);
                     ("doi", Store.SStr "10.5281/zenodo.2");
                     ("owners", Store.SRef 2);
                     ("access_conditions", Store.SStr "restricted")];
        Store.ODict [("created", Store.SStr "2020-01-01");
                     ("json", Store.SRef 3)]]
       0 4 false
       [("created", VStr "2020-01-01");
        ("json",
         VDict [("$schema", VStr "records/record-v1.0.0.json");
                ("conceptrecid", VStr "1");
                ("communities", VList [VStr "zenodo"; VStr "physics"]);
                ("doi", VStr "10.5281/zenodo.2");
                ("owners", VList [VInt 7; VInt 8]);
                ("access_conditions", VStr "restricted")])])
    as (r1 & ext1 & r2 & ext2 & E1 & E2 & _).
  - eexists. split; reflexivity.
  - repeat (econstructor; try reflexivity).
  - exists r1, ext1, r2, ext2. split; assumption.
Defined.

(** C10: when [json] carries a non-empty [conceptrecid] and no [$schema]
    key, [transform] raises [KeyError] for that key, whether or not a
    [doi] is given: the PID rule reads [json["$schema"]] first. *)
Theorem missing_schema_raises (p : bool) (entry j : dict) :
  dict_get "json" entry = Some (VDict j) ->
  present "conceptrecid" j = true ->
  dict_get "$schema" j = None ->
  optional_sequence (field "communities" j) = true ->
  transform p entry = Raise (KeyError "$schema") /\
  _pids entry = Raise (KeyError "$schema").
Proof.
  intros Hjson Hpid Hschema Hcomm.
  assert (Hp : _pids entry = Raise (KeyError "$schema")).
  { rewrite (pids_eq entry j Hjson). unfold dict_getitem.
    now rewrite Hschema. }
  split; [| exact Hp].
  rewrite (transform_json_eq entry j Hjson), Hpid, Hp. cbn [negb].
  rewrite (communities_eq entry j Hjson).
  destruct (field "communities" j) as [| | | | l |]; try discriminate.
  - reflexivity.
  - destruct l; cbn [truthy]; [reflexivity |].
    cbn [iterate bind]. reflexivity.
Qed.

Lemma missing_schema_raises_witness :
  transform false
    [("json", VDict [("conceptrecid", VStr "77");
                     ("communities", VList [VStr "physics"])])] =
  Raise (KeyError "$schema").
Proof.
  apply (missing_schema_raises false
           [("json", VDict [("conceptrecid", VStr "77");
                            ("communities", VList [VStr "physics"])])]
           [("conceptrecid", VStr "77");
            ("communities", VList [VStr "physics"])]);
    reflexivity.
Defined.

(** *** Communities *)

Lemma keep_slug_str (s : string) :
  keep_slug (VStr s) = negb (String.eqb s "zenodo" || String.eqb s "ecfunded").
Proof.
  unfold keep_slug, in_tuple, IGNORED_COMMUNITIES, is_str. cbn [existsb].
  now rewrite orb_false_r.
Qed.

(** What a successful call stores under [json.communities]. *)
Lemma transform_communities (p : bool) (entry j out : dict) (ks : list string) :
  dict_get "json" entry = Some (VDict j) ->
  transform p entry = Ok out ->
  exists communities,
    _communities entry = Ok communities /\
    lookup_path ("json" :: "communities" :: ks) (VDict out) =
    lookup_path ks communities.
Proof.
  intros Hjson H.
  destruct (transform_json_ok_inv p entry j out Hjson H)
    as (c & pids & o & _ & Hc & _ & _ & ->).
  exists c. split; [exact Hc |].
  cbn [lookup_path]. rewrite dict_get_set_same. reflexivity.
Qed.

(** C5: when slugs remain after the reserved ones are dropped,
    [communities.ids] is the filtered sequence, in the original order and
    with its duplicates; [communities.default] is the slug when exactly
    one remains, and is present with value [None] when two or more do. *)
Theorem communities_filtered (p : bool) (entry j out : dict) (l : list value) :
  dict_get "json" entry = Some (VDict j) ->
  dict_get "communities" j = Some (VList l) ->
  filter keep_slug l <> [] ->
  transform p entry = Ok out ->
  let slugs := filter keep_slug l in
  (forall s, In (VStr s) slugs <->
             In (VStr s) l /\ s <> "zenodo" /\ s <> "ecfunded") /\
  lookup_path ["json"; "communities"; "ids"] (VDict out) = Some (VList slugs) /\
  (forall s, slugs = [s] ->
     lookup_path ["json"; "communities"; "default"] (VDict out) = Some s) /\
  (2 <= length slugs ->
     lookup_path ["json"; "communities"; "default"] (VDict out) = Some VNone).
Proof.
  intros Hjson Hcomm Hne H slugs.
  assert (Hc : _communities entry =
               Ok (VDict [("ids", VList slugs);
                          ("default",
                           match slugs with [s] => s | _ => VNone end)])).
  { rewrite (communities_eq entry j Hjson). unfold field. rewrite Hcomm.
    destruct l as [| x l']; [now contradiction Hne |]. reflexivity. }
  split; [| split; [| split]].
  - intros s. unfold slugs. rewrite filter_In, keep_slug_str.
    rewrite negb_true_iff, orb_false_iff.
    rewrite !String.eqb_neq. tauto.
  - destruct (transform_communities p entry j out ["ids"] Hjson H)
      as (c & Hc' & ->).
    rewrite Hc in Hc'. injection Hc' as <-. reflexivity.
  - intros s Hs.
    destruct (transform_communities p entry j out ["default"] Hjson H)
      as (c & Hc' & ->).
    rewrite Hc in Hc'. injection Hc' as <-. now rewrite Hs.
  - intros Hlen.
    destruct (transform_communities p entry j out ["default"] Hjson H)
      as (c & Hc' & ->).
    rewrite Hc in Hc'. injection Hc' as <-.
    destruct slugs as [| s [| s' rest]]; cbn [length] in Hlen;
      try lia; reflexivity.
Qed.

Lemma communities_filtered_witness :
  lookup_path ["json"; "communities"; "ids"]
    (VDict [("json",
             VDict [("$schema", VStr "local://records/parent-v3.0.0.json");
                    ("id", VStr "9");
                    ("communities",
                     VDict [("ids", VList [VStr "bio"; VStr "chem"; VStr "bio"]);
                            ("default", VNone)]);
                    ("pids", VDict [])])]) =
  Some (VList [VStr "bio"; VStr "chem"; VStr "bio"]).
Proof.
  apply (communities_filtered false
           [("json",
             VDict [("$schema", VStr "records/record-v1.0.0.json");
                    ("conceptrecid", VStr "9");
                    ("communities",
                     VList [VStr "bio"; VStr "zenodo"; VStr "chem";
                            VStr "bio"])])]
           [("$schema", VStr "records/record-v1.0.0.json");
            ("conceptrecid", VStr "9");
            ("communities",
             VList [VStr "bio"; VStr "zenodo"; VStr "chem"; VStr "bio"])]
           _
           [VStr "bio"; VStr "zenodo"; VStr "chem"; VStr "bio"]);
    [reflexivity | reflexivity | discriminate | reflexivity].
Defined.

(** C2 as amended: when [communities] is absent or empty the contribution
    is the empty object; when it is non-empty and every slug is reserved
    the contribution is [{ids: [], default: None}]; and
    [communities.default] holds a slug exactly when one eligible slug
    remains. *)
Theorem communities_empty_contribution
    (p : bool) (entry j out : dict) :
  dict_get "json" entry = Some (VDict j) ->
  transform p entry = Ok out ->
  (dict_get "communities" j = None \/
   dict_get "communities" j = Some (VList []) ->
     _communities entry = Ok (VDict []) /\
     lookup_path ["json"; "communities"] (VDict out) = Some (VDict [])) /\
  (forall l, dict_get "communities" j = Some (VList l) ->
     l <> [] -> filter keep_slug l = [] ->
     lookup_path ["json"; "communities"] (VDict out) =
       Some (VDict [("ids", VList []); ("default", VNone)])) /\
  (forall l x, dict_get "communities" j = Some (VList l) ->
     x <> VNone ->
     (lookup_path ["json"; "communities"; "default"] (VDict out) = Some x <->
      filter keep_slug l = [x])).
Proof.
  intros Hjson H.
  pose proof (communities_eq entry j Hjson) as Hc. unfold field in Hc.
  split; [| split].
  - intros Hcomm.
    assert (E : _communities entry = Ok (VDict [])).
    { destruct Hcomm as [E | E]; rewrite E in Hc; exact Hc. }
    split; [exact E |].
    destruct (transform_communities p entry j out [] Hjson H)
      as (c & Hc' & ->).
    rewrite E in Hc'. injection Hc' as <-. reflexivity.
  - intros l Hcomm Hne Hfilter.
    destruct (transform_communities p entry j out [] Hjson H)
      as (c & Hc' & ->).
    rewrite Hcomm in Hc. destruct l as [| y l']; [now contradiction Hne |].
    cbn [truthy iterate bind] in Hc. rewrite Hfilter in Hc.
    rewrite Hc in Hc'. injection Hc' as <-. reflexivity.
  - intros l x Hcomm Hx.
    destruct (transform_communities p entry j out ["default"] Hjson H)
      as (c & Hc' & ->).
    rewrite Hcomm in Hc. destruct l as [| y l'].
    + cbn [truthy] in Hc. rewrite Hc in Hc'. injection Hc' as <-.
      cbn. split; discriminate.
    + cbn [truthy iterate bind] in Hc. cbv zeta in Hc.
      remember (filter keep_slug (y :: l')) as slugs eqn:Hslugs.
      rewrite Hc in Hc'. injection Hc' as <-. clear Hslugs Hc.
      destruct slugs as [| s [| s' rest]]; cbn;
        split; intros E; try discriminate; try congruence;
        injection E as E; congruence.
Qed.

Lemma communities_empty_contribution_witness :
  lookup_path ["json"; "communities"]
    (VDict [("json",
             VDict [("$schema", VStr "local://records/parent-v3.0.0.json");
                    ("id", VInt 31);
                    ("communities", VDict []);
                    ("pids", VDict [])])]) =
  Some (VDict []).
Proof.
  apply (communities_empty_contribution true
           [("json", VDict [("$schema", VStr "records/record-v1.0.0.json");
                            ("conceptrecid", VInt 31);
                            ("communities", VList [])])]
           [("$schema", VStr "records/record-v1.0.0.json");
            ("conceptrecid", VInt 31);
            ("communities", VList [])]);
    [reflexivity | reflexivity | right; reflexivity].
Defined.

(** C2 as stated fails when only reserved slugs are given: the
    contribution then has both an [ids] and a [default] key. *)
Lemma reserved_only_communities_counterexample :
  let j := [("$schema", VStr "records/record-v1.0.0.json");
            ("conceptrecid", VStr "5");
            ("communities", VList [VStr "zenodo"; VStr "ecfunded"])] in
  let entry := [("json", VDict j)] in
  filter keep_slug [VStr "zenodo"; VStr "ecfunded"] = [] /\
  exists out,
    transform false entry = Ok out /\
    lookup_path ["json"; "communities"] (VDict out) =
      Some (VDict [("ids", VList []); ("default", VNone)]) /\
    lookup_path ["json"; "communities"] (VDict out) <> Some (VDict []) /\
    lookup_path ["json"; "communities"; "ids"] (VDict out) <> None /\
    lookup_path ["json"; "communities"; "default"] (VDict out) <> None.
Proof.
  cbv zeta. split; [reflexivity |].
  eexists. split; [reflexivity |].
  repeat split; try reflexivity; discriminate.
Qed.

(** *** Persistent identifiers *)

(** What a successful call stores under [json.pids]. *)
Lemma transform_pids (p : bool) (entry j out : dict) (ks : list string) :
  dict_get "json" entry = Some (VDict j) ->
  transform p entry = Ok out ->
  exists pids,
    _pids entry = Ok pids /\
    lookup_path ("json" :: "pids" :: ks) (VDict out) = lookup_path ks pids.
Proof.
  intros Hjson H.
  destruct (transform_json_ok_inv p entry j out Hjson H)
    as (c & pids & o & _ & _ & Hp & _ & ->).
  exists pids. split; [exact Hp |].
  cbn [lookup_path]. rewrite dict_get_set_same. reflexivity.
Qed.

(** The prefix test of [_pids], when it does not fail, is [recognized_doi]. *)
Lemma recognized_doi_eq (j : dict) (r : bool) :
  (if truthy (field "doi" j)
   then startswith (field "doi" j) ZENODO_DATACITE_PREFIXES
   else Ok false) = Ok r ->
  r = recognized_doi j.
Proof.
  unfold recognized_doi, field.
  destruct (dict_get "doi" j) as [[| b | n | d | l | m] |];
    cbn [truthy startswith].
  - congruence.
  - destruct b; [discriminate | congruence].
  - destruct (negb (n =? 0)%Z); [discriminate | congruence].
  - destruct (String.eqb_spec d ""); cbn [negb]; [subst d; cbn |]; congruence.
  - destruct l; [congruence | discriminate].
  - destruct m; [congruence | discriminate].
  - congruence.
Qed.

(** C3: on an entry whose [$schema] is a string, [pids] follows the case
    split of the PID rule: a recognized [doi] with a [conceptdoi] gives the
    datacite entry carrying the concept DOI; a recognized [doi] without
    [conceptdoi] on a record that is not a draft gives the legacy entry with
    a blank identifier; every other case gives [{}].  [pids] never holds
    more than the one [doi] entry, so the two shapes never occur together. *)
Theorem pids_case_split (p : bool) (entry j out : dict) (sch : string) :
  dict_get "json" entry = Some (VDict j) ->
  dict_get "$schema" j = Some (VStr sch) ->
  transform p entry = Ok out ->
  let pids := lookup_path ["json"; "pids"] (VDict out) in
  let draft := str_contains "deposits" sch in
  (recognized_doi j = true -> present "conceptdoi" j = true ->
     pids = Some (VDict [("doi", VDict [("client", VStr "datacite");
                                        ("provider", VStr "datacite");
                                        ("identifier", field "conceptdoi" j)])]))
  /\
  (recognized_doi j = true -> present "conceptdoi" j = false ->
   draft = false ->
     pids = Some (VDict [("doi", VDict [("provider", VStr "legacy");
                                        ("identifier", VStr "")])]))
  /\
  (recognized_doi j = false \/
   (present "conceptdoi" j = false /\ draft = true) ->
     pids = Some (VDict []))
  /\
  (exists d, pids = Some (VDict d) /\ length d <= 1 /\
             forall k, k <> "doi" -> dict_get k d = None).
Proof.
  intros Hjson Hschema H. cbv zeta.
  destruct (transform_pids p entry j out [] Hjson H) as (v & Hp & Hout).
  rewrite Hout. clear Hout. cbn [lookup_path].
  rewrite (pids_eq entry j Hjson) in Hp. unfold dict_getitem in Hp.
  rewrite Hschema in Hp. cbn [bind contains] in Hp.
  apply bind_ok_inv in Hp. destruct Hp as (r & Hr & Hp).
  apply recognized_doi_eq in Hr. subst r.
  injection Hp as <-. unfold present.
  set (draft := str_contains "deposits" sch).
  destruct (recognized_doi j), (truthy (field "conceptdoi" j)), draft;
    cbn [negb]; (split; [| split; [| split]]);
    try (intros; (reflexivity || congruence));
    try (intros [E | [E1 E2]]; (reflexivity || congruence));
    (eexists; split; [reflexivity |]; split; [cbn; lia |];
     intros k Hk; cbn;
     first [reflexivity
           | destruct (String.eqb_spec k "doi");
             [contradiction | reflexivity]]).
Qed.

Lemma pids_case_split_witness :
  lookup_path ["json"; "pids"]
    (VDict [("json",
             VDict [("$schema", VStr "local://records/parent-v3.0.0.json");
                    ("id", VStr "100");
                    ("communities", VDict []);
                    ("pids",
                     VDict [("doi",
                             VDict [("client", VStr "datacite");
                                    ("provider", VStr "datacite");
                                    ("identifier",
                                     VStr "10.5281/zenodo.100")])])])]) =
  Some (VDict [("doi", VDict [("client", VStr "datacite");
                              ("provider", VStr "datacite");
                              ("identifier", VStr "10.5281/zenodo.100")])]).
Proof.
  apply (pids_case_split false
           [("json", VDict [("$schema", VStr "records/record-v1.0.0.json");
                            ("conceptrecid", VStr "100");
                            ("doi", VStr "10.5281/zenodo.123");
                            ("conceptdoi", VStr "10.5281/zenodo.100")])]
           [("$schema", VStr "records/record-v1.0.0.json");
            ("conceptrecid", VStr "100");
            ("doi", VStr "10.5281/zenodo.123");
            ("conceptdoi", VStr "10.5281/zenodo.100")]
           _ "records/record-v1.0.0.json");
    reflexivity.
Defined.

(** *** Ownership and access settings *)

(** What a successful call stores under [json.access]. *)
Lemma transform_access (p : bool) (entry j out : dict) (ks : list string) :
  dict_get "json" entry = Some (VDict j) ->
  transform p entry = Ok out ->
  exists owner,
    resolve_owner (VDict j) = Ok owner /\
    lookup_path ("json" :: "access" :: ks) (VDict out) =
    lookup_path ("access" :: ks)
      (VDict (access_fragment owner (field "access_conditions" j))).
Proof.
  intros Hjson H.
  destruct (transform_json_ok_inv p entry j out Hjson H)
    as (c & pids & o & _ & _ & _ & Ho & ->).
  exists o. split; [exact Ho |].
  cbn [lookup_path]. rewrite dict_get_set_same. reflexivity.
Qed.

(** The owner is the head of [owners] whenever that list is non-empty. *)
Lemma resolve_owner_owners (j : dict) (o owner : value) (rest : list value) :
  dict_get "owners" j = Some (VList (o :: rest)) ->
  resolve_owner (VDict j) = Ok owner ->
  owner = o.
Proof.
  unfold resolve_owner. cbn [get]. intros ->. cbn [bind]. intros H.
  apply bind_ok_inv in H. destruct H as (dep & _ & H).
  apply bind_ok_inv in H. destruct H as (d0 & _ & H).
  cbn in H. congruence.
Qed.

(** The head of [_deposit.owners] is used when [owners] gives nothing. *)
Lemma resolve_owner_deposit
    (j dep : dict) (o : value) (rest : list value) :
  present "owners" j = false ->
  dict_get "_deposit" j = Some (VDict dep) ->
  dict_get "owners" dep = Some (VList (o :: rest)) ->
  resolve_owner (VDict j) = Ok o.
Proof.
  unfold present, field, resolve_owner. cbn [get]. intros Ho -> .
  cbn [bind get]. intros ->. cbn [bind].
  destruct (dict_get "owners" j) as [o0 |]; cbn [bind];
    unfold py_or at 2; rewrite ?Ho; reflexivity.
Qed.

(** No owner at all. *)
Lemma resolve_owner_none (j : dict) (owner : value) :
  present "owners" j = false ->
  (forall dep, dict_get "_deposit" j = Some (VDict dep) ->
               present "owners" dep = false) ->
  resolve_owner (VDict j) = Ok owner ->
  owner = VNone.
Proof.
  unfold present, field, resolve_owner. cbn [get]. intros Ho Hdep H.
  assert (E : forall d0 : value,
             truthy d0 = false ->
             next_or_none
               (py_or (py_or (match dict_get "owners" j with
                              | Some v => v
                              | None => VNone
                              end) (VList [])) (py_or d0 (VList []))) =
             Ok VNone).
  { intros d0 Hd0. unfold py_or at 2. rewrite Ho. cbn [py_or truthy].
    unfold py_or. rewrite Hd0. reflexivity. }
  destruct (dict_get "owners" j) as [o0 |]; cbn [bind] in H;
    (destruct (dict_get "_deposit" j) as [[| b | n | s | l | dep] |];
     cbn [bind get dict_get] in H; try discriminate;
     [ specialize (Hdep dep eq_refl);
       destruct (dict_get "owners" dep) as [d0 |]; cbn [bind] in H;
       [ rewrite (E d0 Hdep) in H | rewrite (E VNone eq_refl) in H ]
     | rewrite (E VNone eq_refl) in H ]);
    congruence.
Qed.

(** [transform] reads the entry only through the direct keys and the
    fields of [json] listed here, and the owners only through
    [resolve_owner]. *)
Lemma transform_reads (p : bool) (entry entry' j j' : dict) :
  dict_get "json" entry = Some (VDict j) ->
  dict_get "json" entry' = Some (VDict j') ->
  present "conceptrecid" j = true ->
  (forall k, In k DIRECT_KEYS -> dict_get k entry' = dict_get k entry) ->
  (forall k,
      In k ["$schema"; "conceptrecid"; "communities"; "doi"; "conceptdoi";
            "access_conditions"] ->
      dict_get k j' = dict_get k j) ->
  resolve_owner (VDict j') = resolve_owner (VDict j) ->
  transform p entry' = transform p entry.
Proof.
  intros Hjson Hjson' Hpid Hdirect Hfields Howner.
  assert (Hf : forall k,
             In k ["$schema"; "conceptrecid"; "communities"; "doi";
                   "conceptdoi"; "access_conditions"] ->
             field k j' = field k j).
  { intros k Hk. unfold field. now rewrite (Hfields k Hk). }
  assert (Hd : direct_fields entry' = direct_fields entry).
  { unfold direct_fields, DIRECT_KEYS, _load_partial.
    cbn [accessor String.eqb Ascii.eqb Bool.eqb].
    unfold _created, _updated, _version_id, dict_getitem.
    rewrite !Hdirect by (cbn; auto). reflexivity. }
  rewrite (transform_json_eq entry j Hjson), (transform_json_eq entry' j' Hjson').
  rewrite (communities_eq entry j Hjson), (communities_eq entry' j' Hjson').
  rewrite (pids_eq entry j Hjson), (pids_eq entry' j' Hjson').
  unfold present, dict_getitem. unfold present in Hpid.
  rewrite !Hf by (cbn; auto 10). rewrite (Hfields "$schema") by (cbn; auto).
  rewrite Howner, Hd, Hpid. reflexivity.
Qed.

Lemma first_owner_resolves (j : dict) (o owner : value) :
  first_owner j o ->
  resolve_owner (VDict j) = Ok owner ->
  owner = o.
Proof.
  intros [rest Ho | dep rest Hno Hdep Ho] H.
  - exact (resolve_owner_owners j o owner rest Ho H).
  - rewrite (resolve_owner_deposit j dep o rest Hno Hdep Ho) in H.
    congruence.
Qed.

(** C4: when an owner resolves and [access_conditions] is a non-empty
    string, [json.access] holds both contributions at once:
    [owned_by.user] is the resolved owner and [settings] is the fixed
    settings object with the legacy text copied verbatim. *)
Theorem access_combined
    (p : bool) (entry j out : dict) (owner : value) (text : string) :
  dict_get "json" entry = Some (VDict j) ->
  transform p entry = Ok out ->
  first_owner j owner ->
  owner <> VNone ->
  dict_get "access_conditions" j = Some (VStr text) ->
  text <> "" ->
  lookup_path ["json"; "access"; "owned_by"; "user"] (VDict out) = Some owner /\
  lookup_path ["json"; "access"; "settings"] (VDict out) =
    Some (VDict [("allow_user_requests", VBool true);
                 ("allow_guest_requests", VBool true);
                 ("accept_conditions_text", VStr text);
                 ("secret_link_expiration", VInt 30)]) /\
  lookup_path ["json"; "access"] (VDict out) =
    Some (VDict [("owned_by", VDict [("user", owner)]);
                 ("settings", access_settings (VStr text))]).
Proof.
  intros Hjson H Ho Hne Hac Htext.
  assert (Hfrag : access_fragment owner (field "access_conditions" j) =
                  [("access",
                    VDict [("owned_by", VDict [("user", owner)]);
                           ("settings", access_settings (VStr text))])]).
  { unfold access_fragment, field. rewrite Hac. cbn [truthy].
    apply String.eqb_neq in Htext. rewrite Htext. cbn [negb].
    destruct owner; try reflexivity. now contradiction Hne. }
  repeat split.
  - destruct (transform_access p entry j out ["owned_by"; "user"] Hjson H)
      as (o & Ho' & ->).
    rewrite (first_owner_resolves j owner o Ho Ho'), Hfrag. reflexivity.
  - destruct (transform_access p entry j out ["settings"] Hjson H)
      as (o & Ho' & ->).
    rewrite (first_owner_resolves j owner o Ho Ho'), Hfrag. reflexivity.
  - destruct (transform_access p entry j out [] Hjson H) as (o & Ho' & ->).
    rewrite (first_owner_resolves j owner o Ho Ho'), Hfrag. reflexivity.
Qed.

Lemma access_combined_witness :
  lookup_path ["json"; "access"]
    (VDict [("json",
             VDict [("$schema", VStr "local://records/parent-v3.0.0.json");
                    ("id", VStr "3");
                    ("communities", VDict []);
                    ("pids", VDict []);
                    ("access",
                     VDict [("owned_by", VDict [("user", VInt 7)]);
                            ("settings",
                             access_settings (VStr "restricted"))])])]) =
  Some (VDict [("owned_by", VDict [("user", VInt 7)]);
               ("settings", access_settings (VStr "restricted"))]).
Proof.
  apply (access_combined false
           [("json", VDict [("$schema", VStr "records/record-v1.0.0.json");
                            ("conceptrecid", VStr "3");
                            ("owners", VList [VInt 7]);
                            ("access_conditions", VStr "restricted")])]
           [("$schema", VStr "records/record-v1.0.0.json");
            ("conceptrecid", VStr "3");
            ("owners", VList [VInt 7]);
            ("access_conditions", VStr "restricted")]
           _ (VInt 7) "restricted");
    first [reflexivity | discriminate
          | apply (first_of_owners _ _ []); reflexivity].
Defined.

(** A key taken from a list of literals differs from the key just written. *)
Ltac other_key :=
  let k := fresh "k" in
  let Hk := fresh "Hk" in
  intros k Hk; apply dict_get_set_other; intros ->;
  cbn in Hk; intuition discriminate.

(** Replacing the owners that follow the first one changes nothing. *)
Lemma transform_owners_tail
    (p : bool) (entry j : dict) (o : value) (rest rest' : list value) :
  dict_get "json" entry = Some (VDict j) ->
  present "conceptrecid" j = true ->
  dict_get "owners" j = Some (VList (o :: rest)) ->
  transform p
    (dict_set "json" (VDict (dict_set "owners" (VList (o :: rest')) j)) entry) =
  transform p entry.
Proof.
  intros Hjson Hpid Ho.
  apply (transform_reads p entry _ j _ Hjson (dict_get_set_same _ _ _) Hpid).
  - other_key.
  - other_key.
  - unfold resolve_owner. cbn [get].
    rewrite dict_get_set_same, Ho.
    rewrite dict_get_set_other by discriminate. cbn [bind].
    destruct (dict_get "_deposit" j) as [dep |]; cbn [bind];
      match goal with
      | |- context [get ?d "owners" VNone] =>
          destruct (get d "owners" VNone) as [d0 | e]; reflexivity
      end.
Qed.

Lemma transform_deposit_owners_tail
    (p : bool) (entry j dep : dict) (o : value) (rest rest' : list value) :
  dict_get "json" entry = Some (VDict j) ->
  present "conceptrecid" j = true ->
  present "owners" j = false ->
  dict_get "_deposit" j = Some (VDict dep) ->
  dict_get "owners" dep = Some (VList (o :: rest)) ->
  transform p
    (dict_set "json"
       (VDict (dict_set "_deposit"
                 (VDict (dict_set "owners" (VList (o :: rest')) dep)) j))
       entry) =
  transform p entry.
Proof.
  intros Hjson Hpid Hno Hdep Ho.
  apply (transform_reads p entry _ j _ Hjson (dict_get_set_same _ _ _) Hpid).
  - other_key.
  - other_key.
  - rewrite (resolve_owner_deposit j dep o rest Hno Hdep Ho).
    apply (resolve_owner_deposit _
             (dict_set "owners" (VList (o :: rest')) dep) o rest').
    + unfold present, field. rewrite dict_get_set_other by discriminate.
      exact Hno.
    + apply dict_get_set_same.
    + apply dict_get_set_same.
Qed.

(** C6: the owner is the first element of [owners] when that sequence is
    non-empty, else the first element of [_deposit.owners] when that one
    is non-empty, and then [access.owned_by.user] is set to it; otherwise
    the output has no [access.owned_by].  The owners after the first of
    the chosen sequence are ignored: any other tail gives the same
    output. *)
Theorem owner_resolution (p : bool) (entry j out : dict) :
  dict_get "json" entry = Some (VDict j) ->
  transform p entry = Ok out ->
  (forall o rest,
      dict_get "owners" j = Some (VList (o :: rest)) ->
      (o <> VNone ->
       lookup_path ["json"; "access"; "owned_by"; "user"] (VDict out) =
         Some o) /\
      (forall rest',
          transform p
            (dict_set "json"
               (VDict (dict_set "owners" (VList (o :: rest')) j)) entry) =
          Ok out)) /\
  (forall dep o rest,
      present "owners" j = false ->
      dict_get "_deposit" j = Some (VDict dep) ->
      dict_get "owners" dep = Some (VList (o :: rest)) ->
      (o <> VNone ->
       lookup_path ["json"; "access"; "owned_by"; "user"] (VDict out) =
         Some o) /\
      (forall rest',
          transform p
            (dict_set "json"
               (VDict (dict_set "_deposit"
                         (VDict (dict_set "owners" (VList (o :: rest')) dep))
                         j))
               entry) =
          Ok out)) /\
  (present "owners" j = false ->
   (forall dep, dict_get "_deposit" j = Some (VDict dep) ->
                present "owners" dep = false) ->
   lookup_path ["json"; "access"; "owned_by"] (VDict out) = None).
Proof.
  intros Hjson H.
  destruct (transform_json_ok_inv p entry j out Hjson H)
    as (c & pids & o' & Hpid & _ & _ & _ & _).
  assert (Huser : forall o, first_owner j o -> o <> VNone ->
            lookup_path ["json"; "access"; "owned_by"; "user"] (VDict out) =
              Some o).
  { intros o Hfirst Hne.
    destruct (transform_access p entry j out ["owned_by"; "user"] Hjson H)
      as (owner & Ho & ->).
    rewrite (first_owner_resolves j o owner Hfirst Ho).
    unfold access_fragment.
    destruct o; try (now contradiction Hne);
      destruct (truthy (field "access_conditions" j)); reflexivity. }
  split; [| split].
  - intros o rest Ho. split.
    + apply Huser. exact (first_of_owners j o rest Ho).
    + intros rest'.
      now rewrite (transform_owners_tail p entry j o rest rest' Hjson Hpid Ho).
  - intros dep o rest Hno Hdep Ho. split.
    + apply Huser. exact (first_of_deposit_owners j o dep rest Hno Hdep Ho).
    + intros rest'.
      now rewrite (transform_deposit_owners_tail p entry j dep o rest rest'
                     Hjson Hpid Hno Hdep Ho).
  - intros Hno Hdep.
    destruct (transform_access p entry j out ["owned_by"] Hjson H)
      as (owner & Ho & ->).
    rewrite (resolve_owner_none j owner Hno Hdep Ho).
    unfold access_fragment.
    destruct (truthy (field "access_conditions" j)); reflexivity.
Qed.

Lemma owner_resolution_witness :
  lookup_path ["json"; "access"; "owned_by"; "user"]
    (VDict [("json",
             VDict [("$schema", VStr "local://records/parent-v3.0.0.json");
                    ("id", VStr "8");
                    ("communities", VDict []);
                    ("pids", VDict []);
                    ("access",
                     VDict [("owned_by", VDict [("user", VInt 42)])])])]) =
  Some (VInt 42).
Proof.
  pose proof
    (owner_resolution false
       [("json", VDict [("$schema", VStr "deposits/records/v1.json");
                        ("conceptrecid", VStr "8");
                        ("owners", VList []);
                        ("_deposit",
                         VDict [("owners", VList [VInt 42; VInt 43])])])]
       [("$schema", VStr "deposits/records/v1.json");
        ("conceptrecid", VStr "8");
        ("owners", VList []);
        ("_deposit", VDict [("owners", VList [VInt 42; VInt 43])])]
       [("json",
         VDict [("$schema", VStr "local://records/parent-v3.0.0.json");
                ("id", VStr "8");
                ("communities", VDict []);
                ("pids", VDict []);
                ("access",
                 VDict [("owned_by", VDict [("user", VInt 42)])])])]
       eq_refl eq_refl) as [_ [Hdeposit _]].
  apply (Hdeposit [("owners", VList [VInt 42; VInt 43])] (VInt 42) [VInt 43]);
    first [reflexivity | discriminate].
Defined.

(** *** Complete entries are accepted *)

(** The owner rule returns on optional sequences. *)
Lemma resolve_owner_total (j : dict) :
  optional_sequence (field "owners" j) = true ->
  match dict_get "_deposit" j with
  | None => true
  | Some (VDict dep) => optional_sequence (field "owners" dep)
  | Some _ => false
  end = true ->
  exists o, resolve_owner (VDict j) = Ok o.
Proof.
  unfold resolve_owner, field. cbn [get]. intros Ho Hdep.
  assert (E : forall a b : value,
             optional_sequence a = true -> optional_sequence b = true ->
             exists o, next_or_none (py_or (py_or a (VList []))
                                          (py_or b (VList []))) = Ok o).
  { intros a b Ha Hb.
    destruct a as [| | | | [| x l] |]; try discriminate;
      destruct b as [| | | | [| y l'] |]; try discriminate;
      eexists; reflexivity. }
  destruct (dict_get "_deposit" j) as [[| | | | | dep] |];
    try discriminate; cbn [bind get dict_get].
  - destruct (dict_get "owners" j) as [a |]; cbn [bind];
      (destruct (dict_get "owners" dep) as [b |]; cbn [bind]);
      apply E; auto.
  - destruct (dict_get "owners" j) as [a |]; cbn [bind]; apply E; auto.
Qed.

(** On every entry whose [json] section has the shape of the data model
    [transform] returns a record: the properties above that assume a
    successful call apply to all of them. *)
Lemma transform_succeeds (p : bool) (entry j : dict) :
  dict_get "json" entry = Some (VDict j) ->
  legacy_json j = true ->
  exists out, transform p entry = Ok out.
Proof.
  intros Hjson Hwf. unfold legacy_json in Hwf.
  repeat (apply andb_prop in Hwf; destruct Hwf as [Hwf ?]).
  rewrite (transform_json_eq entry j Hjson), Hwf. cbn [negb].
  assert (Hc : exists c, _communities entry = Ok c).
  { rewrite (communities_eq entry j Hjson).
    destruct (field "communities" j) as [| | | | l |]; try discriminate;
      [| destruct l]; eexists; reflexivity. }
  assert (Hp : exists v, _pids entry = Ok v).
  { rewrite (pids_eq entry j Hjson). unfold dict_getitem.
    destruct (dict_get "$schema" j) as [[| | | sch | |] |];
      try discriminate.
    cbn [bind contains].
    destruct (field "doi" j) as [| | | d | |]; try discriminate;
      cbn [truthy startswith]; [| destruct (negb (String.eqb d ""))];
      eexists; reflexivity. }
  destruct (resolve_owner_total j) as (o & Ho); auto.
  destruct Hc as (c & Hc), Hp as (v & Hp). rewrite Hc, Hp, Ho.
  eexists. reflexivity.
Qed.

(** ** Further properties of the transformer *)

(** *** The target [json] record *)

Lemma dict_set_keys_fresh (k : string) (v : value) (d : dict) :
  dict_get k d = None -> map fst (dict_set k v d) = map fst d ++ [k].
Proof.
  induction d as [| [k0 v0] d IH]; cbn [dict_get dict_set map app fst].
  - reflexivity.
  - destruct (String.eqb k k0); [discriminate |].
    intros H. cbn [map fst]. now rewrite IH.
Qed.

(** X1: a successful call on an entry with a [json] section stores the
    fixed schema locator under [json.$schema] and the non-empty
    [conceptrecid] under [json.id]; the members of the target [json] are
    [$schema], [id], [communities], [pids], in this order, followed by
    [access] and by nothing else. *)
Theorem json_skeleton (p : bool) (entry j out : dict) :
  dict_get "json" entry = Some (VDict j) ->
  transform p entry = Ok out ->
  lookup_path ["json"; "$schema"] (VDict out) =
    Some (VStr "local://records/parent-v3.0.0.json") /\
  lookup_path ["json"; "id"] (VDict out) = Some (field "conceptrecid" j) /\
  truthy (field "conceptrecid" j) = true /\
  exists tjson,
    dict_get "json" out = Some (VDict tjson) /\
    (map fst tjson = ["$schema"; "id"; "communities"; "pids"] \/
     map fst tjson = ["$schema"; "id"; "communities"; "pids"; "access"]).
Proof.
  intros Hjson H.
  destruct (transform_json_ok_inv p entry j out Hjson H)
    as (c & pids & o & Hpid & _ & _ & _ & ->).
  cbn [lookup_path]. rewrite dict_get_set_same.
  repeat split; try reflexivity; [exact Hpid |].
  eexists. split; [reflexivity |].
  unfold access_fragment.
  destruct o, (truthy (field "access_conditions" j)); cbn; auto.
Qed.

Lemma json_skeleton_witness :
  lookup_path ["json"; "id"]
    (VDict [("json",
             VDict [("$schema", VStr "local://records/parent-v3.0.0.json");
                    ("id", VInt 14);
                    ("communities", VDict []);
                    ("pids", VDict [])])]) =
  Some (VInt 14).
Proof.
  apply (json_skeleton true
           [("json", VDict [("$schema", VStr "records/record-v1.0.0.json");
                            ("conceptrecid", VInt 14);
                            ("title", VStr "A dataset")])]
           [("$schema", VStr "records/record-v1.0.0.json");
            ("conceptrecid", VInt 14);
            ("title", VStr "A dataset")]);
    reflexivity.
Defined.

(** X2: the top-level keys of a record built from an entry with a [json]
    section are the direct keys that the entry carries, in the order
    [created], [updated], [version_id], followed by [json]; no other key
    of the entry is copied. *)
Theorem output_keys (p : bool) (entry j out : dict) :
  dict_get "json" entry = Some (VDict j) ->
  transform p entry = Ok out ->
  map fst out =
    filter (fun k => dict_contains k entry) DIRECT_KEYS ++ ["json"] /\
  (forall k, is_direct_key k = false -> k <> "json" -> dict_get k out = None).
Proof.
  intros Hjson H.
  destruct (transform_json_ok_inv p entry j out Hjson H)
    as (c & pids & o & _ & _ & _ & _ & ->).
  split.
  - rewrite dict_set_keys_fresh by apply direct_fields_no_json.
    now rewrite direct_fields_keys.
  - intros k Hk Hne. rewrite dict_get_set_other by exact Hne.
    rewrite direct_fields_get. now rewrite Hk.
Qed.

Lemma output_keys_witness :
  map fst
    [("created", VStr "2019-03-02"); ("version_id", VInt 2);
     ("json", VDict [("$schema", VStr "local://records/parent-v3.0.0.json");
                     ("id", VStr "6");
                     ("communities", VDict []);
                     ("pids", VDict [])])] =
  filter (fun k =>
            dict_contains k
              [("index", VStr "records"); ("version_id", VInt 2);
               ("json", VDict [("$schema", VStr "records/record-v1.0.0.json");
                               ("conceptrecid", VStr "6")]);
               ("created", VStr "2019-03-02")])
    DIRECT_KEYS ++ ["json"].
Proof.
  apply (output_keys true
           [("index", VStr "records"); ("version_id", VInt 2);
            ("json", VDict [("$schema", VStr "records/record-v1.0.0.json");
                            ("conceptrecid", VStr "6")]);
            ("created", VStr "2019-03-02")]
           [("$schema", VStr "records/record-v1.0.0.json");
            ("conceptrecid", VStr "6")]);
    reflexivity.
Defined.

(** *** Failures *)

Lemma bind_raise_inv {A B : Type} (m : result A) (k : A -> result B) (e : exn) :
  bind m k = Raise e ->
  m = Raise e \/ exists a, m = Ok a /\ k a = Raise e.
Proof.
  destruct m as [a | e']; cbn [bind]; intros H.
  - right. exists a. auto.
  - left. congruence.
Qed.

Lemma iterate_raise (v : value) (e : exn) :
  iterate v = Raise e -> e = TypeError.
Proof. destruct v; cbn [iterate]; congruence. Qed.

Lemma next_or_none_raise (v : value) (e : exn) :
  next_or_none v = Raise e -> e = TypeError.
Proof.
  unfold next_or_none. intros H.
  apply bind_raise_inv in H. destruct H as [H | (items & _ & H)].
  - exact (iterate_raise v e H).
  - discriminate.
Qed.

Lemma communities_raise (entry j : dict) (e : exn) :
  dict_get "json" entry = Some (VDict j) ->
  _communities entry = Raise e ->
  e = TypeError.
Proof.
  intros Hjson. rewrite (communities_eq entry j Hjson).
  destruct (truthy (field "communities" j)); [| discriminate].
  intros H. apply bind_raise_inv in H. destruct H as [H | (items & _ & H)].
  - exact (iterate_raise _ e H).
  - discriminate.
Qed.

Lemma pids_raise (entry j : dict) (e : exn) :
  dict_get "json" entry = Some (VDict j) ->
  _pids entry = Raise e ->
  (e = KeyError "$schema" /\ dict_get "$schema" j = None) \/
  e = TypeError \/ e = AttributeError "startswith".
Proof.
  intros Hjson. rewrite (pids_eq entry j Hjson). unfold dict_getitem.
  destruct (dict_get "$schema" j) as [schema |]; cbn [bind].
  - destruct schema; cbn [contains bind]; try (intros H; right; left; congruence);
      (destruct (truthy (field "doi" j));
       [destruct (field "doi" j); cbn [startswith bind];
        intros H; try discriminate; right; right; congruence
       | cbn [bind]; discriminate]).
  - intros H. left. split; congruence.
Qed.

Lemma resolve_owner_raise (j : dict) (e : exn) :
  resolve_owner (VDict j) = Raise e ->
  e = AttributeError "get" \/ e = TypeError.
Proof.
  unfold resolve_owner. cbn [get].
  destruct (dict_get "owners" j) as [o0 |]; cbn [bind];
    (destruct (dict_get "_deposit" j) as [dep |]; cbn [bind]);
    intros H; apply bind_raise_inv in H;
    destruct H as [H | (d0 & _ & H)];
    try (right; exact (next_or_none_raise _ e H));
    try (destruct dep; cbn [get] in H; try (left; congruence);
         destruct (dict_get "owners" d); discriminate);
    cbn in H; discriminate.
Qed.

(** The failures of [transform] on an entry that carries a [json] section. *)
Lemma transform_json_raise_inv (p : bool) (entry j : dict) (e : exn) :
  dict_get "json" entry = Some (VDict j) ->
  transform p entry = Raise e ->
  (present "conceptrecid" j = false /\ e = NoConceptRecidForDraft entry) \/
  (present "conceptrecid" j = true /\
   ((e = KeyError "$schema" /\ dict_get "$schema" j = None) \/
    e = AttributeError "get" \/ e = AttributeError "startswith" \/
    e = TypeError)).
Proof.
  intros Hjson. rewrite (transform_json_eq entry j Hjson).
  destruct (present "conceptrecid" j); cbn [negb]; intros H.
  - right. split; [reflexivity |].
    apply bind_raise_inv in H. destruct H as [H | (c & _ & H)].
    { right. right. right. exact (communities_raise entry j e Hjson H). }
    apply bind_raise_inv in H. destruct H as [H | (v & _ & H)].
    { destruct (pids_raise entry j e Hjson H) as [? | [? | ?]]; auto. }
    apply bind_raise_inv in H. destruct H as [H | (o & _ & H)].
    { destruct (resolve_owner_raise j e H); auto. }
    discriminate.
  - left. split; congruence.
Qed.

(** X3: [transform] raises [NoConceptRecidForDraft] exactly when [json]
    is a mapping whose [conceptrecid] is missing, [None] or empty, and the
    failure then carries the entry itself; the check comes before every
    other rule, so no other field of the entry can mask it. *)
Theorem conceptrecid_failure_iff (p : bool) (entry draft : dict) :
  transform p entry = Raise (NoConceptRecidForDraft draft) <->
  exists j,
    dict_get "json" entry = Some (VDict j) /\
    present "conceptrecid" j = false /\
    draft = entry.
Proof.
  split.
  - intros H. destruct (dict_get "json" entry) as [v |] eqn:Hjson.
    + destruct v as [| | | | | j];
        try (unfold transform, dict_contains, dict_getitem in H;
             rewrite Hjson in H; discriminate).
      exists j. split; [reflexivity |].
      destruct (transform_json_raise_inv p entry j _ Hjson H)
        as [[Hpid E] | [_ [[E _] | [E | [E | E]]]]];
        try discriminate.
      split; [exact Hpid | congruence].
    + rewrite (transform_no_json p entry Hjson) in H.
      destruct p; discriminate.
  - intros (j & Hjson & Hpid & ->).
    rewrite (transform_json_eq entry j Hjson), Hpid. reflexivity.
Qed.

(** X4: when the value under [json] is not a mapping ([None], a number,
    a string, a list), [transform] raises [AttributeError] in either
    mode: the partial mode excuses a missing [json] key only. *)
Theorem json_not_mapping_raises (p : bool) (entry : dict) (v : value) :
  dict_get "json" entry = Some v ->
  (forall j, v <> VDict j) ->
  transform p entry = Raise (AttributeError "get").
Proof.
  intros Hjson Hv. unfold transform, dict_contains, dict_getitem.
  rewrite Hjson. cbn [bind].
  destruct v; try reflexivity. now contradiction (Hv d).
Qed.

Lemma json_not_mapping_raises_witness :
  transform true [("created", VStr "2020-02-02"); ("json", VNone)] =
  Raise (AttributeError "get").
Proof.
  apply (json_not_mapping_raises true
           [("created", VStr "2020-02-02"); ("json", VNone)] VNone);
    [reflexivity | discriminate].
Defined.

(** X5: every failure of [transform] is one of six: [KeyError] for [json]
    (the key is missing and the mode is not partial), the [conceptrecid]
    failure carrying the entry, [KeyError] for [$schema] (the legacy
    section has no such key), [AttributeError] for [get] or [startswith]
    (a value of the wrong type), or [TypeError].  No other key is ever
    reported missing. *)
Theorem failure_taxonomy (p : bool) (entry : dict) (e : exn) :
  transform p entry = Raise e ->
  (e = KeyError "json" /\ dict_get "json" entry = None /\ p = false) \/
  (e = NoConceptRecidForDraft entry /\
   exists j, dict_get "json" entry = Some (VDict j) /\
             present "conceptrecid" j = false) \/
  (e = KeyError "$schema" /\
   exists j, dict_get "json" entry = Some (VDict j) /\
             dict_get "$schema" j = None) \/
  e = AttributeError "get" \/ e = AttributeError "startswith" \/
  e = TypeError.
Proof.
  intros H. destruct (dict_get "json" entry) as [v |] eqn:Hjson.
  - destruct v as [| | | | | j];
      try (unfold transform, dict_contains, dict_getitem in H;
           rewrite Hjson in H; cbn [bind get] in H;
           right; right; right; left; congruence).
    destruct (transform_json_raise_inv p entry j e Hjson H)
      as [[Hpid E] | [_ [[E Hs] | [E | [E | E]]]]]; eauto 10.
  - rewrite (transform_no_json p entry Hjson) in H.
    destruct p; cbn [negb] in H; [discriminate |].
    left. repeat split; congruence.
Qed.

Lemma failure_taxonomy_witness :
  TypeError = KeyError "json" /\
    dict_get "json"
      [("json", VDict [("conceptrecid", VStr "2");
                       ("communities", VInt 5)])] = None /\
    false = false \/
  (TypeError =
     NoConceptRecidForDraft
       [("json", VDict [("conceptrecid", VStr "2");
                        ("communities", VInt 5)])] /\
   exists j,
     dict_get "json"
       [("json", VDict [("conceptrecid", VStr "2");
                        ("communities", VInt 5)])] = Some (VDict j) /\
     present "conceptrecid" j = false) \/
  (TypeError = KeyError "$schema" /\
   exists j,
     dict_get "json"
       [("json", VDict [("conceptrecid", VStr "2");
                        ("communities", VInt 5)])] = Some (VDict j) /\
     dict_get "$schema" j = None) \/
  TypeError = AttributeError "get" \/ TypeError = AttributeError "startswith" \/
  TypeError = TypeError.
Proof.
  apply (failure_taxonomy false
           [("json", VDict [("conceptrecid", VStr "2");
                            ("communities", VInt 5)])] TypeError).
  reflexivity.
Defined.

(** *** The entries that are accepted *)

(** Case analysis on a value down to what decides its truth value. *)
Ltac by_truth v :=
  destruct v as [| [|] | [| ? | ?] | [| ? ?] | [| ? ?] | [| ? ?]].

Lemma succeeds_iff {A : Type} (r : result A) :
  (exists a, r = Ok a) <-> succeeds r = true.
Proof.
  destruct r as [a | e]; cbn [succeeds]; split.
  - reflexivity.
  - intros _. exists a. reflexivity.
  - intros (a & H). discriminate.
  - discriminate.
Qed.

Lemma communities_succeeds (entry j : dict) :
  dict_get "json" entry = Some (VDict j) ->
  succeeds (_communities entry) =
  negb (present "communities" j) || iterable (field "communities" j).
Proof.
  intros Hjson. rewrite (communities_eq entry j Hjson). unfold present.
  by_truth (field "communities" j); reflexivity.
Qed.

Lemma pids_succeeds (entry j : dict) :
  dict_get "json" entry = Some (VDict j) ->
  succeeds (_pids entry) =
  match dict_get "$schema" j with
  | Some schema => iterable schema
  | None => false
  end
  && (negb (present "doi" j)
      || match field "doi" j with VStr _ => true | _ => false end).
Proof.
  intros Hjson. rewrite (pids_eq entry j Hjson). unfold present, dict_getitem.
  destruct (dict_get "$schema" j) as [schema |]; [| reflexivity].
  destruct schema; cbn [bind contains iterable andb succeeds];
    try reflexivity;
    by_truth (field "doi" j); reflexivity.
Qed.

Lemma next_owner_succeeds (a b : value) :
  succeeds (next_or_none (py_or (py_or a (VList [])) (py_or b (VList [])))) =
  owners_iterable a b.
Proof. by_truth a; try reflexivity; by_truth b; reflexivity. Qed.

Lemma resolve_owner_succeeds (j : dict) :
  succeeds (resolve_owner (VDict j)) =
  match dict_get "_deposit" j with
  | None => owners_iterable (field "owners" j) VNone
  | Some (VDict dep) => owners_iterable (field "owners" j) (field "owners" dep)
  | Some _ => false
  end.
Proof.
  unfold resolve_owner. cbn [get].
  assert (E : match dict_get "owners" j with
              | Some x => Ok x
              | None => Ok VNone
              end = Ok (field "owners" j)).
  { unfold field. destruct (dict_get "owners" j); reflexivity. }
  rewrite E. cbn [bind].
  destruct (dict_get "_deposit" j) as [[| | | | | dep] |];
    cbn [bind get dict_get]; try reflexivity.
  - assert (E' : match dict_get "owners" dep with
                 | Some x => Ok x
                 | None => Ok VNone
                 end = Ok (field "owners" dep)).
    { unfold field. destruct (dict_get "owners" dep); reflexivity. }
    rewrite E'. cbn [bind]. apply next_owner_succeeds.
  - apply next_owner_succeeds.
Qed.

(** X6: on an entry whose [json] is a mapping, [transform] returns a
    record exactly when [conceptrecid] is non-empty, [communities] is
    empty or can be iterated over, [$schema] is there and supports [in],
    [doi] is empty or a string, [_deposit] is missing or a mapping, and
    the owners sequence that is chosen can be iterated over.  The mode
    and all other fields play no part. *)
Theorem transform_accepts_iff (p : bool) (entry j : dict) :
  dict_get "json" entry = Some (VDict j) ->
  (exists out, transform p entry = Ok out) <-> accepts j = true.
Proof.
  intros Hjson. rewrite succeeds_iff.
  assert (E : succeeds (transform p entry) = accepts j).
  { unfold accepts. rewrite <- !andb_assoc.
    rewrite <- (resolve_owner_succeeds j).
    rewrite (andb_assoc (match dict_get "$schema" j with
                         | Some schema => iterable schema
                         | None => false
                         end)).
    rewrite <- (pids_succeeds entry j Hjson).
    rewrite <- (communities_succeeds entry j Hjson).
    rewrite (transform_json_eq entry j Hjson).
    destruct (present "conceptrecid" j); cbn [negb andb]; [| reflexivity].
    destruct (_communities entry); cbn [bind succeeds andb]; [| reflexivity].
    destruct (_pids entry); cbn [bind succeeds andb]; [| reflexivity].
    destruct (resolve_owner (VDict j)); reflexivity. }
  now rewrite E.
Qed.

Lemma transform_accepts_iff_witness :
  (exists out,
      transform false
        [("json", VDict [("$schema", VStr "records/record-v1.0.0.json");
                         ("conceptrecid", VStr "4");
                         ("doi", VInt 10)])] = Ok out) <->
  false = true.
Proof.
  apply (transform_accepts_iff false
           [("json", VDict [("$schema", VStr "records/record-v1.0.0.json");
                            ("conceptrecid", VStr "4");
                            ("doi", VInt 10)])]
           [("$schema", VStr "records/record-v1.0.0.json");
            ("conceptrecid", VStr "4");
            ("doi", VInt 10)]).
  reflexivity.
Defined.

(** *** The access member *)

(** X7: the [access] member of the target record reflects the two rules
    that write it, and nothing else: [owned_by] is there exactly when an
    owner was resolved, [settings] exactly when [access_conditions] is
    non-empty (its value is copied whatever its type), and [access] is
    missing altogether exactly when neither rule fired. *)
Theorem access_presence (p : bool) (entry j out : dict) :
  dict_get "json" entry = Some (VDict j) ->
  transform p entry = Ok out ->
  exists owner,
    resolve_owner (VDict j) = Ok owner /\
    (owner = VNone ->
     lookup_path ["json"; "access"; "owned_by"] (VDict out) = None) /\
    (owner <> VNone ->
     lookup_path ["json"; "access"; "owned_by"] (VDict out) =
       Some (VDict [("user", owner)])) /\
    (present "access_conditions" j = false ->
     lookup_path ["json"; "access"; "settings"] (VDict out) = None) /\
    (present "access_conditions" j = true ->
     lookup_path ["json"; "access"; "settings"] (VDict out) =
       Some (access_settings (field "access_conditions" j))) /\
    (lookup_path ["json"; "access"] (VDict out) = None <->
     owner = VNone /\ present "access_conditions" j = false).
Proof.
  intros Hjson H.
  destruct (transform_json_ok_inv p entry j out Hjson H)
    as (c & pids & owner & _ & _ & _ & Ho & ->).
  exists owner. split; [exact Ho |].
  cbn [lookup_path]. rewrite dict_get_set_same.
  unfold present, access_fragment.
  destruct (truthy (field "access_conditions" j));
    destruct owner; cbn;
    repeat split; intros; try reflexivity; try congruence;
    try (exfalso; intuition congruence).
Qed.

Lemma access_presence_witness :
  exists owner,
    resolve_owner
      (VDict [("$schema", VStr "records/record-v1.0.0.json");
              ("conceptrecid", VStr "21");
              ("access_conditions", VStr "ask the authors")]) = Ok owner /\
    lookup_path ["json"; "access"]
      (VDict [("json",
               VDict [("$schema", VStr "local://records/parent-v3.0.0.json");
                      ("id", VStr "21");
                      ("communities", VDict []);
                      ("pids", VDict []);
                      ("access",
                       VDict [("settings",
                               access_settings (VStr "ask the authors"))])])])
      <> None.
Proof.
  destruct
    (access_presence false
       [("json", VDict [("$schema", VStr "records/record-v1.0.0.json");
                        ("conceptrecid", VStr "21");
                        ("access_conditions", VStr "ask the authors")])]
       [("$schema", VStr "records/record-v1.0.0.json");
        ("conceptrecid", VStr "21");
        ("access_conditions", VStr "ask the authors")]
       [("json",
         VDict [("$schema", VStr "local://records/parent-v3.0.0.json");
                ("id", VStr "21");
                ("communities", VDict []);
                ("pids", VDict []);
                ("access",
                 VDict [("settings",
                         access_settings (VStr "ask the authors"))])])]
       eq_refl eq_refl)
    as (owner & Ho & _ & _ & _ & _ & Hiff).
  exists owner. split; [exact Ho |].
  intros Hnone. apply Hiff in Hnone. destruct Hnone as [_ Hac]. discriminate.
Defined.

(** X8: when the first element of [owners] is [None], no owner is
    recorded, whatever follows it in [owners] and whatever
    [_deposit.owners] holds: the fallback is not consulted for a
    non-empty [owners]. *)
Theorem null_first_owner
    (p : bool) (entry j out : dict) (rest : list value) :
  dict_get "json" entry = Some (VDict j) ->
  dict_get "owners" j = Some (VList (VNone :: rest)) ->
  transform p entry = Ok out ->
  lookup_path ["json"; "access"; "owned_by"] (VDict out) = None.
Proof.
  intros Hjson Ho H.
  destruct (transform_access p entry j out ["owned_by"] Hjson H)
    as (owner & Hr & ->).
  rewrite (resolve_owner_owners j VNone owner rest Ho Hr).
  unfold access_fragment.
  destruct (truthy (field "access_conditions" j)); reflexivity.
Qed.

Lemma null_first_owner_witness :
  lookup_path ["json"; "access"; "owned_by"]
    (VDict [("json",
             VDict [("$schema", VStr "local://records/parent-v3.0.0.json");
                    ("id", VStr "30");
                    ("communities", VDict []);
                    ("pids", VDict [])])]) = None.
Proof.
  apply (null_first_owner false
           [("json", VDict [("$schema", VStr "records/record-v1.0.0.json");
                            ("conceptrecid", VStr "30");
                            ("owners", VList [VNone; VInt 5]);
                            ("_deposit",
                             VDict [("owners", VList [VInt 9])])])]
           [("$schema", VStr "records/record-v1.0.0.json");
            ("conceptrecid", VStr "30");
            ("owners", VList [VNone; VInt 5]);
            ("_deposit", VDict [("owners", VList [VInt 9])])]
           _ [VInt 5]);
    reflexivity.
Defined.

(** X9: a [_deposit] that is not a mapping ([None], for one) makes the
    record fail, also when [owners] already names an owner: the fallback
    sequence is read before the choice between the two is made.  When the
    earlier rules pass, the failure is [AttributeError]. *)
Theorem deposit_not_mapping_raises
    (p : bool) (entry j : dict) (v : value) :
  dict_get "json" entry = Some (VDict j) ->
  dict_get "_deposit" j = Some v ->
  (forall dep, v <> VDict dep) ->
  (forall out, transform p entry <> Ok out) /\
  (present "conceptrecid" j = true ->
   succeeds (_communities entry) = true ->
   succeeds (_pids entry) = true ->
   transform p entry = Raise (AttributeError "get")).
Proof.
  intros Hjson Hdep Hv.
  assert (Hr : resolve_owner (VDict j) = Raise (AttributeError "get")).
  { unfold resolve_owner. cbn [get]. rewrite Hdep.
    destruct (dict_get "owners" j); cbn [bind];
      destruct v; try reflexivity; now contradiction (Hv d). }
  split.
  - intros out H.
    destruct (transform_json_ok_inv p entry j out Hjson H)
      as (c & pids & o & _ & _ & _ & Ho & _).
    congruence.
  - intros Hpid Hc Hp. rewrite (transform_json_eq entry j Hjson), Hpid, Hr.
    destruct (_communities entry); [| discriminate].
    destruct (_pids entry); [| discriminate].
    reflexivity.
Qed.

Lemma deposit_not_mapping_raises_witness :
  transform false
    [("json", VDict [("$schema", VStr "records/record-v1.0.0.json");
                     ("conceptrecid", VStr "11");
                     ("owners", VList [VInt 3]);
                     ("_deposit", VNone)])] =
  Raise (AttributeError "get").
Proof.
  apply (deposit_not_mapping_raises false
           [("json", VDict [("$schema", VStr "records/record-v1.0.0.json");
                            ("conceptrecid", VStr "11");
                            ("owners", VList [VInt 3]);
                            ("_deposit", VNone)])]
           [("$schema", VStr "records/record-v1.0.0.json");
            ("conceptrecid", VStr "11");
            ("owners", VList [VInt 3]);
            ("_deposit", VNone)]
           VNone);
    first [reflexivity | discriminate].
Defined.

(** *** What the result does not depend on *)

Lemma direct_fields_ext (entry entry' : dict) :
  (forall k, In k DIRECT_KEYS -> dict_get k entry' = dict_get k entry) ->
  direct_fields entry' = direct_fields entry.
Proof.
  intros Hdirect. unfold direct_fields, DIRECT_KEYS, _load_partial.
  cbn [accessor String.eqb Ascii.eqb Bool.eqb].
  unfold _created, _updated, _version_id, dict_getitem.
  rewrite !Hdirect by (cbn; auto). reflexivity.
Qed.

(** [transform] as a function of the results of its rules. *)
Lemma transform_congr (p : bool) (entry entry' j j' : dict) :
  dict_get "json" entry = Some (VDict j) ->
  dict_get "json" entry' = Some (VDict j') ->
  field "conceptrecid" j' = field "conceptrecid" j ->
  present "conceptrecid" j = true ->
  field "access_conditions" j' = field "access_conditions" j ->
  _communities entry' = _communities entry ->
  _pids entry' = _pids entry ->
  resolve_owner (VDict j') = resolve_owner (VDict j) ->
  direct_fields entry' = direct_fields entry ->
  transform p entry' = transform p entry.
Proof.
  intros Hjson Hjson' Hid Hpid Hac Hc Hp Ho Hd.
  rewrite (transform_json_eq entry j Hjson), (transform_json_eq entry' j' Hjson').
  unfold present in *. rewrite Hid, Hac, Hc, Hp, Ho, Hd, Hpid. reflexivity.
Qed.

(** Rewriting a field of [json] that only the PID rule reads. *)
Lemma transform_set_pid_field
    (p : bool) (entry j : dict) (k : string) (v : value) :
  dict_get "json" entry = Some (VDict j) ->
  present "conceptrecid" j = true ->
  In k ["$schema"; "doi"; "conceptdoi"] ->
  _pids (dict_set "json" (VDict (dict_set k v j)) entry) = _pids entry ->
  transform p (dict_set "json" (VDict (dict_set k v j)) entry) =
  transform p entry.
Proof.
  intros Hjson Hpid Hk Hp.
  assert (Hother : forall k0,
             In k0 ["conceptrecid"; "communities"; "owners"; "_deposit";
                    "access_conditions"] ->
             dict_get k0 (dict_set k v j) = dict_get k0 j).
  { intros k0 Hk0. apply dict_get_set_other. intros ->.
    cbn in Hk, Hk0. intuition (subst; discriminate). }
  apply (transform_congr p entry _ j _ Hjson (dict_get_set_same _ _ _));
    try exact Hpid; try exact Hp.
  - unfold field. rewrite Hother by (cbn; auto). reflexivity.
  - unfold field. rewrite Hother by (cbn; auto 10). reflexivity.
  - rewrite (communities_eq entry j Hjson).
    rewrite (communities_eq _ _ (dict_get_set_same _ _ _)).
    unfold field. rewrite Hother by (cbn; auto). reflexivity.
  - unfold resolve_owner. cbn [get].
    rewrite !Hother by (cbn; auto 10). reflexivity.
  - apply direct_fields_ext. other_key.
Qed.

(** X10: the result depends on no field of [json] besides the eight that
    the rules look up, and on no top-level key besides the direct keys
    and [json]: adding or changing any other one leaves a successful
    result as it is. *)
Theorem unread_field_ignored (p : bool) (entry j out : dict) :
  dict_get "json" entry = Some (VDict j) ->
  transform p entry = Ok out ->
  (forall k v, ~ In k READ_FIELDS ->
     transform p (dict_set "json" (VDict (dict_set k v j)) entry) = Ok out) /\
  (forall k v, is_direct_key k = false -> k <> "json" ->
     transform p (dict_set k v entry) = Ok out).
Proof.
  intros Hjson H.
  destruct (transform_json_ok_inv p entry j out Hjson H)
    as (c & pids & o & Hpid & _ & _ & _ & _).
  split.
  - intros k v Hk. rewrite <- H.
    assert (Hother : forall k0, In k0 READ_FIELDS ->
               dict_get k0 (dict_set k v j) = dict_get k0 j).
    { intros k0 Hk0. apply dict_get_set_other. intros ->. contradiction. }
    apply (transform_reads p entry _ j _ Hjson (dict_get_set_same _ _ _) Hpid).
    + other_key.
    + intros k0 Hk0. apply Hother. unfold READ_FIELDS.
      cbn in Hk0 |- *. intuition auto.
    + unfold resolve_owner. cbn [get].
      rewrite !Hother by (unfold READ_FIELDS; cbn; auto 10). reflexivity.
  - intros k v Hk Hne. rewrite <- H.
    assert (Hjson' : dict_get "json" (dict_set k v entry) = Some (VDict j)).
    { rewrite dict_get_set_other by congruence. exact Hjson. }
    apply (transform_reads p entry _ j j Hjson Hjson' Hpid);
      try reflexivity.
    intros k0 Hk0. apply dict_get_set_other. intros ->.
    unfold is_direct_key in Hk.
    assert (Ht : existsb (String.eqb k) DIRECT_KEYS = true).
    { apply existsb_exists. exists k. split; [exact Hk0 | apply String.eqb_refl]. }
    congruence.
Qed.

Lemma unread_field_ignored_witness :
  transform false
    (dict_set "json"
       (VDict (dict_set "title" (VStr "Another title")
                 [("$schema", VStr "records/record-v1.0.0.json");
                  ("conceptrecid", VStr "40");
                  ("title", VStr "A title")]))
       [("json", VDict [("$schema", VStr "records/record-v1.0.0.json");
                        ("conceptrecid", VStr "40");
                        ("title", VStr "A title")])]) =
  Ok [("json", VDict [("$schema", VStr "local://records/parent-v3.0.0.json");
                      ("id", VStr "40");
                      ("communities", VDict []);
                      ("pids", VDict [])])].
Proof.
  pose proof
    (unread_field_ignored false
       [("json", VDict [("$schema", VStr "records/record-v1.0.0.json");
                        ("conceptrecid", VStr "40");
                        ("title", VStr "A title")])]
       [("$schema", VStr "records/record-v1.0.0.json");
        ("conceptrecid", VStr "40");
        ("title", VStr "A title")]
       [("json", VDict [("$schema", VStr "local://records/parent-v3.0.0.json");
                        ("id", VStr "40");
                        ("communities", VDict []);
                        ("pids", VDict [])])]
       eq_refl eq_refl) as [Hfield _].
  apply Hfield. unfold READ_FIELDS. cbn. intuition discriminate.
Defined.

Lemma prefix_test_str (d : string) :
  (if truthy (VStr d)
   then startswith (VStr d) ZENODO_DATACITE_PREFIXES
   else Ok false) = Ok (recognized_prefix d).
Proof. destruct d; reflexivity. Qed.

(** X11: of a [doi] only the prefix is used: replacing it by any other
    string that is recognized, or not recognized, just as it is leaves the
    result unchanged, so the version DOI itself never reaches the parent
    record. *)
Theorem doi_only_prefix_matters
    (p : bool) (entry j out : dict) (d d' : string) :
  dict_get "json" entry = Some (VDict j) ->
  dict_get "doi" j = Some (VStr d) ->
  recognized_prefix d' = recognized_prefix d ->
  transform p entry = Ok out ->
  transform p (dict_set "json" (VDict (dict_set "doi" (VStr d') j)) entry) =
  Ok out.
Proof.
  intros Hjson Hd Hrec H.
  destruct (transform_json_ok_inv p entry j out Hjson H)
    as (c & pids & o & Hpid & _ & _ & _ & _).
  rewrite <- H.
  apply (transform_set_pid_field p entry j "doi" _ Hjson Hpid);
    [cbn; auto |].
  rewrite (pids_eq entry j Hjson).
  rewrite (pids_eq _ _ (dict_get_set_same _ _ _)).
  unfold dict_getitem, field.
  rewrite dict_get_set_same, Hd.
  rewrite !dict_get_set_other by discriminate.
  now rewrite !prefix_test_str, Hrec.
Qed.

Lemma doi_only_prefix_matters_witness :
  transform false
    (dict_set "json"
       (VDict (dict_set "doi" (VStr "10.5072/zenodo.77")
                 [("$schema", VStr "records/record-v1.0.0.json");
                  ("conceptrecid", VStr "50");
                  ("doi", VStr "10.5281/zenodo.51")]))
       [("json", VDict [("$schema", VStr "records/record-v1.0.0.json");
                        ("conceptrecid", VStr "50");
                        ("doi", VStr "10.5281/zenodo.51")])]) =
  Ok [("json", VDict [("$schema", VStr "local://records/parent-v3.0.0.json");
                      ("id", VStr "50");
                      ("communities", VDict []);
                      ("pids",
                       VDict [("doi", VDict [("provider", VStr "legacy");
                                             ("identifier", VStr "")])])])].
Proof.
  apply (doi_only_prefix_matters false
           [("json", VDict [("$schema", VStr "records/record-v1.0.0.json");
                            ("conceptrecid", VStr "50");
                            ("doi", VStr "10.5281/zenodo.51")])]
           [("$schema", VStr "records/record-v1.0.0.json");
            ("conceptrecid", VStr "50");
            ("doi", VStr "10.5281/zenodo.51")]
           _ "10.5281/zenodo.51" "10.5072/zenodo.77");
    reflexivity.
Defined.

(** X12: of a [$schema] string only the draft marker is used: another
    string with the same answer to the marker test gives the same result,
    and when a [conceptdoi] is given or the [doi] is not recognized any
    other string does. *)
Theorem schema_only_draft_marker_matters
    (p : bool) (entry j out : dict) (sch sch' : string) :
  dict_get "json" entry = Some (VDict j) ->
  dict_get "$schema" j = Some (VStr sch) ->
  str_contains "deposits" sch' = str_contains "deposits" sch \/
  present "conceptdoi" j = true \/ recognized_doi j = false ->
  transform p entry = Ok out ->
  transform p (dict_set "json" (VDict (dict_set "$schema" (VStr sch') j)) entry)
  = Ok out.
Proof.
  intros Hjson Hs Hsame H.
  destruct (transform_json_ok_inv p entry j out Hjson H)
    as (c & pids & o & Hpid & _ & _ & _ & _).
  rewrite <- H.
  apply (transform_set_pid_field p entry j "$schema" _ Hjson Hpid);
    [cbn; auto |].
  rewrite (pids_eq entry j Hjson).
  rewrite (pids_eq _ _ (dict_get_set_same _ _ _)).
  unfold dict_getitem.
  assert (Hf : forall k, k <> "$schema" ->
             field k (dict_set "$schema" (VStr sch') j) = field k j).
  { intros k Hk. unfold field. now rewrite dict_get_set_other. }
  rewrite dict_get_set_same, Hs, !Hf by discriminate.
  cbn [bind contains].
  destruct (if truthy (field "doi" j)
            then startswith (field "doi" j) ZENODO_DATACITE_PREFIXES
            else Ok false) as [r | e] eqn:Hr; cbn [bind]; [| reflexivity].
  apply recognized_doi_eq in Hr. subst r.
  destruct Hsame as [E | [E | E]].
  - now rewrite E.
  - unfold present in E. rewrite E.
    destruct (recognized_doi j); reflexivity.
  - now rewrite E.
Qed.

Lemma schema_only_draft_marker_matters_witness :
  transform true
    (dict_set "json"
       (VDict (dict_set "$schema" (VStr "deposits/records/record-v1.0.0.json")
                 [("$schema", VStr "records/record-v1.0.0.json");
                  ("conceptrecid", VStr "60");
                  ("doi", VStr "10.5281/zenodo.61");
                  ("conceptdoi", VStr "10.5281/zenodo.60")]))
       [("json", VDict [("$schema", VStr "records/record-v1.0.0.json");
                        ("conceptrecid", VStr "60");
                        ("doi", VStr "10.5281/zenodo.61");
                        ("conceptdoi", VStr "10.5281/zenodo.60")])]) =
  Ok [("json", VDict [("$schema", VStr "local://records/parent-v3.0.0.json");
                      ("id", VStr "60");
                      ("communities", VDict []);
                      ("pids",
                       VDict [("doi",
                               VDict [("client", VStr "datacite");
                                      ("provider", VStr "datacite");
                                      ("identifier",
                                       VStr "10.5281/zenodo.60")])])])].
Proof.
  apply (schema_only_draft_marker_matters true
           [("json", VDict [("$schema", VStr "records/record-v1.0.0.json");
                            ("conceptrecid", VStr "60");
                            ("doi", VStr "10.5281/zenodo.61");
                            ("conceptdoi", VStr "10.5281/zenodo.60")])]
           [("$schema", VStr "records/record-v1.0.0.json");
            ("conceptrecid", VStr "60");
            ("doi", VStr "10.5281/zenodo.61");
            ("conceptdoi", VStr "10.5281/zenodo.60")]
           _ "records/record-v1.0.0.json"
           "deposits/records/record-v1.0.0.json");
    first [reflexivity | right; left; reflexivity].
Defined.

(** ** The examples of the specification, evaluated *)
Section Examples.

Example communities_reserved_dropped :
  member ["communities"]
    (transform false
       (record [("communities",
                 VList [VStr "zenodo"; VStr "physics"; VStr "ecfunded"])])) =
  Some (VDict [("ids", VList [VStr "physics"]); ("default", VStr "physics")]).
Proof. reflexivity. Qed.

Example communities_two_slugs :
  member ["communities"]
    (transform false
       (record [("communities", VList [VStr "bio"; VStr "chem"])])) =
  Some (VDict [("ids", VList [VStr "bio"; VStr "chem"]); ("default", VNone)]).
Proof. reflexivity. Qed.

Example communities_none_given :
  member ["communities"] (transform false (record [])) = Some (VDict []) /\
  member ["communities"]
    (transform false (record [("communities", VList [])])) = Some (VDict []).
Proof. split; reflexivity. Qed.

Example pids_legacy :
  member ["pids"]
    (transform false (record [("doi", VStr "10.5281/zenodo.123")])) =
  Some (VDict [("doi", VDict [("provider", VStr "legacy");
                              ("identifier", VStr "")])]).
Proof. reflexivity. Qed.

Example pids_external_doi :
  member ["pids"]
    (transform false (record [("doi", VStr "10.9999/external.1")])) =
  Some (VDict []).
Proof. reflexivity. Qed.

Example pids_draft_without_conceptdoi :
  transform false
    [("json", VDict [("$schema", VStr "https://zenodo.org/schemas/deposits/records/record-v1.0.0.json");
                     ("conceptrecid", VStr "1");
                     ("doi", VStr "10.5072/zenodo.9")])] =
  Ok [("json", VDict [("$schema", VStr "local://records/parent-v3.0.0.json");
                      ("id", VStr "1");
                      ("communities", VDict []);
                      ("pids", VDict [])])].
Proof. reflexivity. Qed.

Example access_settings_only :
  member ["access"]
    (transform false (record [("access_conditions", VStr "on request")])) =
  Some (VDict [("settings", access_settings (VStr "on request"))]).
Proof. reflexivity. Qed.

Example json_not_a_mapping :
  transform true [("json", VNone)] = Raise (AttributeError "get").
Proof. reflexivity. Qed.

End Examples.
